(** * kindle2markdown: the configuration manager ([config_manager.py])

    A shallow embedding of [ConfigManager] and the properties its
    specification states about it.

    Conventions of the embedding.
    - A Python value that can live in a configuration document is a [json]
      term.  Mappings are association lists in insertion order, as Python
      dictionaries (and [json.dump]) keep them; a dictionary never holds a
      key twice, which is the predicate [wf_json].  Numbers are integers;
      floating-point numbers are outside the model.
    - A Python [str] used as a key or a scalar is a Rocq [string] (its UTF-8
      bytes).  The text of [.gitignore] is a list of Unicode code points,
      because [str.splitlines] and [str.strip] are defined on code points.
    - A call that may raise returns an [outcome]; a method that touches the
      file system or prints runs in the monad [M] over a [world].
    - A configuration file is modelled by the document it denotes:
      [json.load] of what [json.dump] wrote returns the same document.
      The text of [.gitignore] is the text that a text-mode read returns.
    - Objects are modelled by their values. A method that changes a document
      in place returns the store after the change; the documents of a store
      share no object with each other, and the built-in defaults are those
      of a newly constructed store. *)

From Stdlib Require Import List String Ascii ZArith NArith Bool Lia Arith.
Import ListNotations.
Open Scope string_scope.
Open Scope list_scope.
Open Scope Z_scope.

(** ** Python values *)

Module Py.

(** The exception classes that the code can meet. *)
Inductive exn : Type :=
| KeyError
| TypeError
| AttributeError
| JSONDecodeError
| FileNotFoundError
| PermissionError
| UnicodeDecodeError
| IndexError
| OtherOSError.

Inductive outcome (A : Type) : Type :=
| Ret (a : A)
| Raise (e : exn).

Arguments Ret {A} a.
Arguments Raise {A} e.

Definition bind {A B : Type} (m : outcome A) (k : A -> outcome B) : outcome B :=
  match m with
  | Ret a => k a
  | Raise e => Raise e
  end.

(** [try: body  except classes: handler]. *)
Definition try_except {A : Type} (body : outcome A) (catches : exn -> bool)
    (handler : exn -> outcome A) : outcome A :=
  match body with
  | Ret a => Ret a
  | Raise e => if catches e then handler e else Raise e
  end.

Definition returns {A : Type} (m : outcome A) : Prop :=
  exists a, m = Ret a.

Unset Elimination Schemes.
Inductive json : Type :=
| JNull
| JBool (b : bool)
| JNum (n : Z)
| JStr (s : string)
| JList (l : list json)
| JDict (d : list (string * json)).
Set Elimination Schemes.

Definition dict : Type := list (string * json).

(** [key in d] and [d[key]] on a dictionary. *)
Fixpoint dict_get (d : dict) (key : string) : option json :=
  match d with
  | [] => None
  | (k, v) :: rest => if String.eqb k key then Some v else dict_get rest key
  end.

Definition dict_has (d : dict) (key : string) : bool :=
  match dict_get d key with
  | Some _ => true
  | None => false
  end.

(** [d[key] = value]: an existing key keeps its place, a new one goes last. *)
Fixpoint dict_set (d : dict) (key : string) (value : json) : dict :=
  match d with
  | [] => [(key, value)]
  | (k, v) :: rest =>
      if String.eqb k key then (k, value) :: rest
      else (k, v) :: dict_set rest key value
  end.

Definition keys (d : dict) : list string := map fst d.

Fixpoint nodup_keys (ks : list string) : bool :=
  match ks with
  | [] => true
  | k :: rest => negb (existsb (String.eqb k) rest) && nodup_keys rest
  end.

(** No dictionary inside the value holds a key twice. *)
Fixpoint wf_json (v : json) : bool :=
  match v with
  | JList l => forallb wf_json l
  | JDict d =>
      nodup_keys (keys d) &&
      (fix all (d : dict) : bool :=
         match d with
         | [] => true
         | (_, x) :: rest => wf_json x && all rest
         end) d
  | _ => true
  end.

(** Truth value of a document value ([if v:]). *)
Definition truthy (v : json) : bool :=
  match v with
  | JNull => false
  | JBool b => b
  | JNum n => negb (n =? 0)
  | JStr s => negb (String.eqb s EmptyString)
  | JList l => match l with [] => false | _ => true end
  | JDict d => match d with [] => false | _ => true end
  end.

Definition is_None (v : json) : bool :=
  match v with
  | JNull => true
  | _ => false
  end.

Definition is_dict (v : json) : bool :=
  match v with
  | JDict _ => true
  | _ => false
  end.

(** [a == b]: [True == 1], lists by position, dictionaries by key. *)
Fixpoint py_eqb (a b : json) : bool :=
  match a, b with
  | JNull, JNull => true
  | JBool x, JBool y => Bool.eqb x y
  | JBool x, JNum n => (if x then 1 else 0) =? n
  | JNum n, JBool y => n =? (if y then 1 else 0)
  | JNum n, JNum m => n =? m
  | JStr s, JStr t => String.eqb s t
  | JList l, JList m =>
      (fix each (l m : list json) : bool :=
         match l, m with
         | [], [] => true
         | x :: l', y :: m' => py_eqb x y && each l' m'
         | _, _ => false
         end) l m
  | JDict d, JDict e =>
      Nat.eqb (List.length d) (List.length e) &&
      (fix each (d : dict) : bool :=
         match d with
         | [] => true
         | (k, v) :: d' =>
             match dict_get e k with
             | Some w => py_eqb v w
             | None => false
             end && each d'
         end) d
  | _, _ => false
  end.

(** [obj[key]] for a string [key]. *)
Definition getitem (obj : json) (key : string) : outcome json :=
  match obj with
  | JDict d =>
      match dict_get d key with
      | Some v => Ret v
      | None => Raise KeyError
      end
  | _ => Raise TypeError
  end.

(** [key in obj] for a string [key]: key membership in a dictionary, element
    membership in a list, substring test in a string. *)
Fixpoint is_prefix (p s : string) : bool :=
  match p, s with
  | EmptyString, _ => true
  | String a p', String b s' => Ascii.eqb a b && is_prefix p' s'
  | String _ _, EmptyString => false
  end.

Fixpoint is_substring (p s : string) : bool :=
  is_prefix p s ||
  match s with
  | EmptyString => false
  | String _ s' => is_substring p s'
  end.

Definition contains (obj : json) (key : string) : outcome bool :=
  match obj with
  | JDict d => Ret (dict_has d key)
  | JList l => Ret (existsb (fun x => py_eqb x (JStr key)) l)
  | JStr s => Ret (is_substring key s)
  | _ => Raise TypeError
  end.

(** [obj[key] = value] for a string [key]. *)
Definition setitem (obj : json) (key : string) (value : json) : outcome json :=
  match obj with
  | JDict d => Ret (JDict (dict_set d key value))
  | _ => Raise TypeError
  end.

(** [obj.get(key)]. *)
Definition get_method (obj : json) (key : string) : outcome json :=
  match obj with
  | JDict d =>
      match dict_get d key with
      | Some v => Ret v
      | None => Ret JNull
      end
  | _ => Raise AttributeError
  end.

(** The elements that [for p in obj] visits. *)
Definition iterate (obj : json) : outcome (list json) :=
  match obj with
  | JList l => Ret l
  | JDict d => Ret (map JStr (keys d))
  | JStr s => Ret (map (fun c => JStr (String c EmptyString)) (list_ascii_of_string s))
  | _ => Raise TypeError
  end.

(** [s.split('.')]. *)
Fixpoint split_dot (s : string) : list string :=
  match s with
  | EmptyString => [EmptyString]
  | String c rest =>
      if Ascii.eqb c "."%char then EmptyString :: split_dot rest
      else
        match split_dot rest with
        | [] => [String c EmptyString]
        | w :: ws => String c w :: ws
        end
  end.

End Py.

Export Py.


(** ** Text: what [create_gitignore] reads and writes *)

Module Text.

Open Scope N_scope.

(** A Python [str] as its code points. *)
Definition text : Type := list N.

Definition LF : N := 10.
Definition CR : N := 13.

(** The line boundaries of [str.splitlines]. *)
Definition is_linebreak (c : N) : bool :=
  (c =? 10) || (c =? 11) || (c =? 12) || (c =? 13) || (c =? 28) || (c =? 29)
  || (c =? 30) || (c =? 133) || (c =? 8232) || (c =? 8233).

(** The white space that [str.strip] removes. *)
Definition is_space (c : N) : bool :=
  ((9 <=? c) && (c <=? 13)) || ((28 <=? c) && (c <=? 32)) || (c =? 133)
  || (c =? 160) || (c =? 5760) || ((8192 <=? c) && (c <=? 8202))
  || (c =? 8232) || (c =? 8233) || (c =? 8239) || (c =? 8287) || (c =? 12288).

Definition cons_to_first (c : N) (ls : list text) : list text :=
  match ls with
  | [] => [[c]]
  | l :: ls' => (c :: l) :: ls'
  end.

(** [s.splitlines()]: the lines without their boundaries; a carriage return
    followed by a line feed is one boundary; no empty last line. *)
Fixpoint splitlines (s : text) : list text :=
  match s with
  | [] => []
  | c :: rest =>
      if is_linebreak c then
        [] :: match rest with
              | c' :: rest' =>
                  if (c =? CR) && (c' =? LF) then splitlines rest'
                  else splitlines rest
              | [] => []
              end
      else cons_to_first c (splitlines rest)
  end.

Fixpoint lstrip (s : text) : text :=
  match s with
  | [] => []
  | c :: rest => if is_space c then lstrip rest else s
  end.

(** [s.strip()]. *)
Definition strip (s : text) : text := rev (lstrip (rev (lstrip s))).

Fixpoint text_eqb (a b : text) : bool :=
  match a, b with
  | [], [] => true
  | x :: a', y :: b' => (x =? y) && text_eqb a' b'
  | _, _ => false
  end.

(** [entry in entries]. *)
Definition mem (entry : text) (entries : list text) : bool :=
  existsb (text_eqb entry) entries.

(** ["\n".join(entries)]. *)
Fixpoint join_lines (entries : list text) : text :=
  match entries with
  | [] => []
  | [e] => e
  | e :: rest => e ++ LF :: join_lines rest
  end.

(** The code points of a UTF-8 byte sequence (the source file is UTF-8). *)
Fixpoint decode_utf8 (bs : list N) : text :=
  match bs with
  | [] => []
  | b :: r =>
      if b <? 128 then b :: decode_utf8 r
      else if b <? 224 then
        match r with
        | b1 :: r1 => ((b - 192) * 64 + (b1 - 128)) :: decode_utf8 r1
        | _ => []
        end
      else if b <? 240 then
        match r with
        | b1 :: b2 :: r2 =>
            ((b - 224) * 4096 + (b1 - 128) * 64 + (b2 - 128)) :: decode_utf8 r2
        | _ => []
        end
      else
        match r with
        | b1 :: b2 :: b3 :: r3 =>
            ((b - 240) * 262144 + (b1 - 128) * 4096 + (b2 - 128) * 64 + (b3 - 128))
            :: decode_utf8 r3
        | _ => []
        end
  end.

Definition of_string (s : string) : text :=
  decode_utf8 (map N_of_ascii (list_ascii_of_string s)).

End Text.

Export Text.

(** ** The world around a [ConfigManager] *)

Module World.

(** A configuration file in the base directory. *)
Inductive file : Type :=
| NoFile                (* [exists()] is false *)
| JsonText (v : json)   (* text that [json.load] reads as [v] *)
| BadText               (* text that [json.load] rejects *)
| OpenFails (e : exn).  (* [exists()] is true, [open] or [read] raises [e] *)

(** What [print] writes. *)
Inductive message : Type :=
| SharedLoadError (e : exn)   (* 共有設定ファイル読み込みエラー *)
| LocalLoadError (e : exn)    (* ローカル設定ファイル読み込みエラー *)
| SharedSaveError (e : exn)   (* 共有設定ファイル保存エラー *)
| LocalSaveError (e : exn).   (* ローカル設定ファイル保存エラー *)

(** Where a write fails: [open(path, 'w')] raises and the file is as it was,
    or [json.dump] raises after [open] has emptied the file. *)
Inductive write_failure : Type :=
| AtOpen (e : exn)
| AtDump (e : exn).

(** A question to [os.path.exists]: which files of the base directory exist
    at that moment, and the path asked. *)
Record query : Type := mkQuery {
  shared_present : bool;
  local_present : bool;
  gitignore_present : bool;
  asked : json
}.

Record world : Type := mkWorld {
  shared_file : file;                     (* base_dir / "config.json" *)
  local_file : file;                      (* base_dir / "config.local.json" *)
  shared_write_error : option write_failure;  (* writing config.json fails *)
  local_write_error : option write_failure;   (* writing config.local.json *)
  gitignore : option text;                (* base_dir / ".gitignore" *)
  gitignore_error : option exn;           (* raised by [open] on it *)
  home_desktop : string;                  (* str(Path.home() / "Desktop") *)
  exists_oracle : query -> outcome bool;  (* the rest of the file system *)
  stdout : list message
}.

Definition file_exists (f : file) : bool :=
  match f with
  | NoFile => false
  | _ => true
  end.

(** [os.path.exists(v)] in the world [w]: the answer follows the files of
    the base directory as they are in [w]. *)
Definition path_exists (w : world) (v : json) : outcome bool :=
  exists_oracle w
    (mkQuery (file_exists (shared_file w)) (file_exists (local_file w))
       (match gitignore w with Some _ => true | None => false end) v).

Definition set_shared_file (w : world) (f : file) : world :=
  mkWorld f (local_file w) (shared_write_error w) (local_write_error w)
    (gitignore w) (gitignore_error w) (home_desktop w) (exists_oracle w)
    (stdout w).

Definition set_local_file (w : world) (f : file) : world :=
  mkWorld (shared_file w) f (shared_write_error w) (local_write_error w)
    (gitignore w) (gitignore_error w) (home_desktop w) (exists_oracle w)
    (stdout w).

Definition set_gitignore (w : world) (t : option text) : world :=
  mkWorld (shared_file w) (local_file w) (shared_write_error w)
    (local_write_error w) t (gitignore_error w) (home_desktop w)
    (exists_oracle w) (stdout w).

Definition add_stdout (w : world) (m : message) : world :=
  mkWorld (shared_file w) (local_file w) (shared_write_error w)
    (local_write_error w) (gitignore w) (gitignore_error w) (home_desktop w)
    (exists_oracle w) (stdout w ++ [m]).

(** Computations that read and change the world and may raise. *)
Definition M (A : Type) : Type := world -> outcome A * world.

Definition ret {A : Type} (a : A) : M A := fun w => (Ret a, w).

Definition raise {A : Type} (e : exn) : M A := fun w => (Raise e, w).

Definition bindM {A B : Type} (m : M A) (k : A -> M B) : M B :=
  fun w =>
    match m w with
    | (Ret a, w') => k a w'
    | (Raise e, w') => (Raise e, w')
    end.

Definition lift {A : Type} (m : outcome A) : M A := fun w => (m, w).

Definition try_exceptM {A : Type} (body : M A) (catches : exn -> bool)
    (handler : exn -> M A) : M A :=
  fun w =>
    match body w with
    | (Ret a, w') => (Ret a, w')
    | (Raise e, w') => if catches e then handler e w' else (Raise e, w')
    end.

Definition print (m : message) : M unit := fun w => (Ret tt, add_stdout w m).

(** [with open(path, 'r', encoding='utf-8') as f: json.load(f)]. *)
Definition read_json (f : file) : outcome json :=
  match f with
  | NoFile => Raise FileNotFoundError
  | JsonText v => Ret v
  | BadText => Raise JSONDecodeError
  | OpenFails e => Raise e
  end.

End World.

Export World.

Notation "x <- m ;; k" := (bindM m (fun x => k))
  (at level 61, m at next level, right associativity).
Notation "m ;;; k" := (bindM m (fun _ => k))
  (at level 61, right associativity).
Notation "'let!' x := m 'in' k" := (bind m (fun x => k))
  (at level 61, x name, m at next level, right associativity).

(** ** [ConfigManager] *)

Module ConfigManager.

(** The two loaded documents; the paths and the built-in defaults of the
    instance are fixed by the world. *)
Record t : Type := mk {
  shared_config : json;
  local_config : json
}.

Definition default_shared_config : dict :=
  [ ("app", JDict
      [ ("title", JStr "Kindle2Markdown");
        ("default_pages", JNum 100);
        ("default_page_key", JStr "right");
        ("default_ocr_lang", JStr "jpn+jpn_vert+eng");
        ("window_keyword", JStr "Kindle for PC") ]);
    ("capture", JDict
      [ ("default_region", JDict
          [ ("x", JNum 0); ("y", JNum 0);
            ("width", JNum 1920); ("height", JNum 1080) ]);
        ("screenshot_format", JStr "png");
        ("filename_format", JStr "screenshot_{:04d}.png") ]);
    ("ocr", JDict
      [ ("tesseract_config", JStr "--psm 6");
        ("supported_languages",
          JList [JStr "jpn"; JStr "jpn_vert"; JStr "eng";
                 JStr "jpn+jpn_vert+eng"]);
        ("output_format", JStr "markdown") ]) ].

Definition default_local_config (desktop : string) : dict :=
  [ ("paths", JDict
      [ ("save_folder", JStr desktop);
        ("tesseract_cmd", JStr "C:\Program Files\Tesseract-OCR\tesseract.exe");
        ("poppler_path", JStr "C:\Program Files\poppler\bin") ]);
    ("user_preferences", JDict
      [ ("last_used_region", JNull);
        ("last_save_folder", JNull);
        ("recent_projects", JList []) ]) ].

(** The loop of [_merge_configs] over [user.items()], with the recursive
    call as [rec]. *)
Definition merge_items (rec : dict -> json -> outcome dict) :
    dict -> dict -> outcome dict :=
  fix loop (result : dict) (items : dict) {struct items} : outcome dict :=
    match items with
    | [] => Ret result
    | (key, value) :: rest =>
        match dict_get result key, value with
        | Some (JDict sub), JDict _ =>
            let! merged := rec sub value in
            loop (dict_set result key (JDict merged)) rest
        | _, _ => loop (dict_set result key value) rest
        end
    end.

(** [_merge_configs(default, user)]; [user.items()] raises on a value that is
    not a dictionary. *)
Fixpoint _merge_configs (default : dict) (user : json) {struct user} :
    outcome dict :=
  match user with
  | JDict items => merge_items _merge_configs default items
  | _ => Raise AttributeError
  end.

Definition in_exns (classes : list exn) (e : exn) : bool :=
  existsb (fun c =>
    match c, e with
    | KeyError, KeyError | TypeError, TypeError
    | AttributeError, AttributeError | JSONDecodeError, JSONDecodeError
    | FileNotFoundError, FileNotFoundError | PermissionError, PermissionError
    | UnicodeDecodeError, UnicodeDecodeError | IndexError, IndexError
    | OtherOSError, OtherOSError => true
    | _, _ => false
    end) classes.

(** [except Exception]. *)
Definition any_exception (e : exn) : bool := true.

Definition load_shared_config : M json :=
  fun w =>
    if file_exists (shared_file w) then
      try_exceptM
        (config <- lift (read_json (shared_file w)) ;;
         merged <- lift (_merge_configs default_shared_config config) ;;
         ret (JDict merged))
        (in_exns [JSONDecodeError; FileNotFoundError])
        (fun e => print (SharedLoadError e) ;;; ret (JDict default_shared_config))
        w
    else ret (JDict default_shared_config) w.

Definition load_local_config : M json :=
  fun w =>
    if file_exists (local_file w) then
      try_exceptM
        (config <- lift (read_json (local_file w)) ;;
         merged <- lift (_merge_configs (default_local_config (home_desktop w))
                           config) ;;
         ret (JDict merged))
        (in_exns [JSONDecodeError; FileNotFoundError])
        (fun e => print (LocalLoadError e) ;;;
                  ret (JDict (default_local_config (home_desktop w))))
        w
    else ret (JDict (default_local_config (home_desktop w))) w.

(** [ConfigManager(base_dir)]. *)
Definition __init__ : M t :=
  shared <- load_shared_config ;;
  local <- load_local_config ;;
  ret (mk shared local).

(** [with open(path, 'w', encoding='utf-8') as f: json.dump(doc, f, ...)]:
    when [open] raises the file is as it was; when the dump raises, [open]
    has emptied the file and the text of the document, a mapping, is cut
    short, which [json.load] rejects. *)
Definition write_shared (doc : json) : M unit :=
  fun w =>
    match shared_write_error w with
    | Some (AtOpen e) => (Raise e, w)
    | Some (AtDump e) => (Raise e, set_shared_file w BadText)
    | None => (Ret tt, set_shared_file w (JsonText doc))
    end.

Definition write_local (doc : json) : M unit :=
  fun w =>
    match local_write_error w with
    | Some (AtOpen e) => (Raise e, w)
    | Some (AtDump e) => (Raise e, set_local_file w BadText)
    | None => (Ret tt, set_local_file w (JsonText doc))
    end.

Definition save_shared_config (self : t) : M bool :=
  try_exceptM
    (write_shared (shared_config self) ;;; ret true)
    any_exception
    (fun e => print (SharedSaveError e) ;;; ret false).

Definition save_local_config (self : t) : M bool :=
  try_exceptM
    (write_local (local_config self) ;;; ret true)
    any_exception
    (fun e => print (LocalSaveError e) ;;; ret false).

(** The loop [for key in keys: current = current[key]]. *)
Fixpoint walk (current : json) (keys : list string) : outcome json :=
  match keys with
  | [] => Ret current
  | key :: rest =>
      let! next := getitem current key in
      walk next rest
  end.

Definition _get_nested_value (config : json) (key_path : string) :
    outcome json :=
  try_except (walk config (split_dot key_path))
    (in_exns [KeyError; TypeError])
    (fun _ => Ret JNull).

(** The object [parent] after its member [key], which the loop moved into,
    was changed in place. *)
Definition with_member (parent : json) (key : string) (child : json) : json :=
  match parent with
  | JDict d => JDict (dict_set d key child)
  | _ => parent
  end.

(** [_set_nested_value] from [current] on: the loop over [keys[:-1]] and the
    assignment at [keys[-1]].  The result is [current] after the mutation.
    The code changes the mappings in place and stores [value] as the object
    it is given; the result describes a document that holds each mapping at
    one place only, and a [value] that the store does not hold already. *)
Fixpoint set_walk (current : json) (keys : list string) (value : json) :
    outcome json :=
  match keys with
  | [] => Raise IndexError
  | [last] => setitem current last value
  | key :: rest =>
      let! present := contains current key in
      let! current1 :=
        (if negb present then setitem current key (JDict []) else Ret current) in
      let! child := getitem current1 key in
      let! child' := set_walk child rest value in
      Ret (with_member current1 key child')
  end.

Definition _set_nested_value (config : json) (key_path : string)
    (value : json) : outcome json :=
  set_walk config (split_dot key_path) value.

Definition get (self : t) (key_path : string) (default : json) : outcome json :=
  let! value := _get_nested_value (local_config self) key_path in
  if negb (is_None value) then Ret value
  else
    let! value := _get_nested_value (shared_config self) key_path in
    if negb (is_None value) then Ret value
    else Ret default.

Definition set_shared (self : t) (key_path : string) (value : json) :
    outcome t :=
  let! doc := _set_nested_value (shared_config self) key_path value in
  Ret (mk doc (local_config self)).

Definition set_local (self : t) (key_path : string) (value : json) :
    outcome t :=
  let! doc := _set_nested_value (local_config self) key_path value in
  Ret (mk (shared_config self) doc).

(** A mapping with the four keys of a region; the last [return] of
    [get_capture_region] is one with constants. *)
Definition rectangle (x y width height : Z) : json :=
  JDict [("x", JNum x); ("y", JNum y);
         ("width", JNum width); ("height", JNum height)].

Definition update_capture_region (self : t) (x y width height : Z) : M t :=
  let region :=
    JDict [("x", JNum x); ("y", JNum y);
           ("width", JNum width); ("height", JNum height)] in
  self' <- lift (set_local self "user_preferences.last_used_region" region) ;;
  save_local_config self' ;;;
  ret self'.

Definition get_capture_region (self : t) : outcome json :=
  let! region := get self "user_preferences.last_used_region" JNull in
  if truthy region then Ret region
  else
    let! region := get self "capture.default_region" JNull in
    if truthy region then Ret region
    else Ret (rectangle 0 0 1920 1080).

Definition set_capture_region (self : t) (x y width height : Z) : M t :=
  let region :=
    JDict [("x", JNum x); ("y", JNum y);
           ("width", JNum width); ("height", JNum height)] in
  self' <- lift (set_local self "user_preferences.last_used_region" region) ;;
  save_local_config self' ;;;
  ret self'.

(** [os.path.exists(v)], asked in the world as it is at the call. *)
Definition os_path_exists (v : json) : M bool :=
  fun w => (path_exists w v, w).

Definition get_save_folder (self : t) : M json :=
  folder <- lift (get self "user_preferences.last_save_folder" JNull) ;;
  ok <- (if truthy folder then os_path_exists folder else ret false) ;;
  if ok then ret folder
  else
    folder <- lift (get self "paths.save_folder" JNull) ;;
    if truthy folder then ret folder
    else fun w => (Ret (JStr (home_desktop w)), w).

Definition set_save_folder (self : t) (folder_path : json) : M t :=
  self' <- lift (set_local self "user_preferences.last_save_folder"
                   folder_path) ;;
  save_local_config self' ;;;
  ret self'.

(** [[p for p in recent if p.get("title") != project_info.get("title")]]. *)
Fixpoint without_title (recent : list json) (project_info : json) :
    outcome (list json) :=
  match recent with
  | [] => Ret []
  | p :: rest =>
      let! a := get_method p "title" in
      let! b := get_method project_info "title" in
      let! rest' := without_title rest project_info in
      Ret (if negb (py_eqb a b) then p :: rest' else rest')
  end.

Definition add_recent_project (self : t) (project_info : json) : M t :=
  recent <- lift (get self "user_preferences.recent_projects" (JList [])) ;;
  items <- lift (iterate recent) ;;
  recent <- lift (without_title items project_info) ;;
  let recent := project_info :: recent in
  let recent := firstn 10 recent in
  self' <- lift (set_local self "user_preferences.recent_projects"
                   (JList recent)) ;;
  save_local_config self' ;;;
  ret self'.

Definition get_recent_projects (self : t) : outcome json :=
  get self "user_preferences.recent_projects" (JList []).

Definition entries_to_add : list text :=
  map of_string
    [ "# ローカル設定ファイル（各PC固有）";
      "config.local.json";
      EmptyString;
      "# OCR出力ファイル";
      "output.md";
      "*.md";
      "!README.md";
      EmptyString;
      "# スクリーンショット";
      "screenshot_*.png";
      "screenshots/";
      EmptyString ].

(** [with open(gitignore_path, 'r', ...) as f: f.read().splitlines()]. *)
Definition read_gitignore_lines : M (list text) :=
  fun w =>
    match gitignore_error w, gitignore w with
    | Some e, _ => (Raise e, w)
    | None, Some content => (Ret (splitlines content), w)
    | None, None => (Raise FileNotFoundError, w)
    end.

(** [with open(gitignore_path, 'a', ...) as f: f.write(s)]: the file is
    created when it is missing. *)
Definition append_gitignore (s : text) : M unit :=
  fun w =>
    match gitignore_error w with
    | Some e => (Raise e, w)
    | None =>
        let old := match gitignore w with Some c => c | None => [] end in
        (Ret tt, set_gitignore w (Some (old ++ s)))
    end.

(** The loop that fills [entries_to_write]: the entries that are not in
    [existing_entries] and that [strip()] does not leave empty. *)
Definition needed_entries (existing_entries : list text) : list text :=
  filter (fun entry =>
            negb (mem entry existing_entries) && negb (text_eqb (strip entry) []))
    entries_to_add.

Definition create_gitignore (self : t) : M unit :=
  existing_entries <-
    (fun w => match gitignore w with
              | Some _ => read_gitignore_lines w
              | None => ret [] w
              end) ;;
  let entries_to_write := needed_entries existing_entries in
  match entries_to_write with
  | [] => ret tt
  | _ =>
      let newline :=
        match existing_entries with
        | [] => []
        | _ => if negb (text_eqb (last existing_entries []) []) then [LF] else []
        end in
      append_gitignore (newline ++ join_lines entries_to_write ++ [LF])
  end.

(** The module body: [config = ConfigManager()] and then
    [config.create_gitignore()]. *)
Definition module_import : M t :=
  config <- __init__ ;;
  create_gitignore config ;;;
  ret config.

End ConfigManager.

Export ConfigManager.

(** ** The words of the specification *)

Module Spec.

(** A key path is present in a document: successive key lookups succeed; an
    absent key, or a key looked up in something that is not a mapping, is
    "not found". *)
Fixpoint find (doc : json) (keys : list string) : option json :=
  match keys with
  | [] => Some doc
  | key :: rest =>
      match doc with
      | JDict d =>
          match dict_get d key with
          | Some v => find v rest
          | None => None
          end
      | _ => None
      end
  end.

(** What a merge leaves under a key that held [old] in the defaults and
    holds [uv] in the user document. *)
Definition merged_value (old : option json) (uv : json) : option json :=
  match old, uv with
  | Some (JDict sub), JDict _ =>
      match _merge_configs sub uv with
      | Ret m => Some (JDict m)
      | Raise _ => None
      end
  | _, _ => Some uv
  end.

(** The user document has a mapping wherever it has a value on the way to
    the path [p]. *)
Definition mappings_before (user : json) (p : list string) : Prop :=
  forall q r v,
    p = q ++ r -> q <> [] -> r <> [] -> find user q = Some v ->
    is_dict v = true.

(** The value of a document at a path "when it is present and non-null". *)
Definition non_null (doc : json) (keys : list string) : option json :=
  match find doc keys with
  | Some v => if is_None v then None else Some v
  | None => None
  end.

(** Lookup precedence: local document, then shared document, then the
    default. *)
Definition lookup (self : t) (key_path : string) (default : json) : json :=
  match non_null (local_config self) (split_dot key_path) with
  | Some v => v
  | None =>
      match non_null (shared_config self) (split_dot key_path) with
      | Some v => v
      | None => default
      end
  end.

(** Every component of the path before the last one is absent from the
    document or holds a mapping. *)
Fixpoint settable (doc : json) (keys : list string) : bool :=
  match keys with
  | [] => false
  | [_] => is_dict doc
  | key :: rest =>
      match doc with
      | JDict d =>
          match dict_get d key with
          | Some child => settable child rest
          | None => true
          end
      | _ => false
      end
  end.

(** A project record "with a title key", and its title. *)
Definition has_title (p : json) : bool :=
  match p with
  | JDict d => dict_has d "title"
  | _ => false
  end.

Definition title (p : json) : json :=
  match p with
  | JDict d =>
      match dict_get d "title" with
      | Some v => v
      | None => JNull
      end
  | _ => JNull
  end.

(** [p] has the title of [q], as the code compares titles. *)
Definition same_title (p q : json) : bool := py_eqb (title p) (title q).

(** No entry has the title of an entry before it. *)
Fixpoint distinct_titles (l : list json) : bool :=
  match l with
  | [] => true
  | p :: rest =>
      forallb (fun q => negb (same_title q p)) rest && distinct_titles rest
  end.

(** The list after a record is added: the old entry of that title removed,
    the record in front, at most ten entries kept. *)
Definition push (l : list json) (r : json) : list json :=
  firstn 10 (r :: filter (fun p => negb (same_title p r)) l).

(** A project record that has only a title. *)
Definition project (name : string) : json := JDict [("title", JStr name)].

(** Each record has a title that no record before it, and no entry of
    [seen], has. *)
Fixpoint all_new (seen records : list json) : bool :=
  match records with
  | [] => true
  | r :: rest =>
      forallb (fun p => negb (same_title p r)) seen && all_new (r :: seen) rest
  end.

Definition recent_path : list string := ["user_preferences"; "recent_projects"].

(** Successive calls of [add_recent_project]. *)
Fixpoint add_all (self : t) (records : list json) : M t :=
  match records with
  | [] => ret self
  | r :: rest =>
      self' <- add_recent_project self r ;;
      add_all self' rest
  end.

(** A configuration file whose load is handled: absent, a JSON object,
    malformed JSON, or gone by the time it is opened. *)
Definition broken (f : file) : bool :=
  match f with
  | BadText => true
  | OpenFails FileNotFoundError => true
  | _ => false
  end.

Definition loadable (f : file) : bool :=
  match f with
  | NoFile => true
  | JsonText (JDict _) => true
  | _ => broken f
  end.

(** The save folder as the specification words it: the remembered local
    folder if set and on disk, else the shared [paths.save_folder], else the
    desktop. *)
Definition worded_save_folder (self : t) (w : world) : json :=
  let remembered :=
    non_null (local_config self) ["user_preferences"; "last_save_folder"] in
  let shared := non_null (shared_config self) ["paths"; "save_folder"] in
  let fallback :=
    match shared with
    | Some v => v
    | None => JStr (home_desktop w)
    end in
  match remembered with
  | Some v =>
      match path_exists w v with
      | Ret true => v
      | _ => fallback
      end
  | None => fallback
  end.

(** The capture region, when the remembered one is not used, as the
    specification words it: the shared [capture.default_region], else the
    hardcoded rectangle. *)
Definition worded_region_fallback (self : t) : json :=
  match non_null (shared_config self) ["capture"; "default_region"] with
  | Some v => v
  | None => rectangle 0 0 1920 1080
  end.

(** The text and the lines of [.gitignore]. *)
Definition content (w : world) : text :=
  match gitignore w with
  | Some c => c
  | None => []
  end.

Definition lines (w : world) : list text := splitlines (content w).

(** A line holds no line boundary. *)
Definition no_break (e : text) : bool :=
  forallb (fun c => negb (is_linebreak c)) e.

Definition count (e : text) (l : list text) : nat :=
  List.length (filter (text_eqb e) l).

(** What [create_gitignore] appends: a line feed when the file does not end
    with an empty line, then the entries, each closed by a line feed. *)
Definition separator (existing_entries : list text) : text :=
  match existing_entries with
  | [] => []
  | _ => if negb (text_eqb (last existing_entries []) []) then [LF] else []
  end.

Definition block (entries_to_write : list text) : text :=
  join_lines entries_to_write ++ [LF].

(** A line of the fixed block that is not blank. *)
Definition fixed_line (e : text) : Prop :=
  In e entries_to_add /\ strip e <> [].

(** A world with no files, where every write succeeds and no path exists. *)
Definition empty_world : world :=
  mkWorld NoFile NoFile None None None None "/home/user/Desktop"
    (fun _ => Ret false) [].

(** Two key paths part ways: they agree up to a component where they
    differ. *)
Fixpoint diverges (p q : list string) : bool :=
  match p, q with
  | k :: p', k' :: q' => if String.eqb k k' then diverges p' q' else true
  | _, _ => false
  end.

(** A world whose local file holds [{"user_preferences": 5}]; no other
    file, every write succeeds and no path exists. *)
Definition scalar_preferences_world : world :=
  mkWorld NoFile (JsonText (JDict [("user_preferences", JNum 5)]))
    None None None None "/home/user/Desktop" (fun _ => Ret false) [].

(** A key holds a dot. *)
Fixpoint has_dot (s : string) : bool :=
  match s with
  | EmptyString => false
  | String c rest => Ascii.eqb c "."%char || has_dot rest
  end.

(** The keys [acc], then those of [ks] that are new, in their order. *)
Fixpoint add_keys (acc ks : list string) : list string :=
  match ks with
  | [] => acc
  | k :: rest =>
      add_keys (if existsb (String.eqb k) acc then acc else acc ++ [k]) rest
  end.

(** What [get_save_folder] returns when no remembered folder is used. *)
Definition configured_folder (self : t) (w : world) : json :=
  let configured := lookup self "paths.save_folder" JNull in
  if truthy configured then configured else JStr (home_desktop w).

(** The world [w'] is the world [w] after the messages [msgs] were
    printed: no file differs. *)
Definition printed (w w' : world) (msgs : list message) : Prop :=
  w' = mkWorld (shared_file w) (local_file w) (shared_write_error w)
         (local_write_error w) (gitignore w) (gitignore_error w)
         (home_desktop w) (exists_oracle w) (stdout w ++ msgs).

(** A configuration file that holds JSON holds a well-formed document. *)
Definition wf_file (f : file) : bool :=
  match f with
  | JsonText v => wf_json v
  | _ => true
  end.

End Spec.

Export Spec.

(** ** Dictionaries *)

Section Dictionaries.

Lemma dict_get_set_same (d : dict) (k : string) (v : json) :
  dict_get (dict_set d k v) k = Some v.
Proof.
  induction d as [|[k0 v0] rest IH]; simpl.
  - now rewrite String.eqb_refl.
  - destruct (String.eqb k0 k) eqn:E; simpl; rewrite E; auto.
Qed.

Lemma dict_get_set_other (d : dict) (k k' : string) (v : json) :
  k <> k' -> dict_get (dict_set d k v) k' = dict_get d k'.
Proof.
  intros Hne.
  induction d as [|[k0 v0] rest IH]; simpl.
  - apply String.eqb_neq in Hne. now rewrite Hne.
  - destruct (String.eqb k0 k) eqn:E; simpl.
    + apply String.eqb_eq in E. subst k0.
      apply String.eqb_neq in Hne. now rewrite Hne.
    + now rewrite IH.
Qed.

Lemma dict_get_absent (d : dict) (k : string) :
  existsb (String.eqb k) (keys d) = false -> dict_get d k = None.
Proof.
  induction d as [|[k0 v0] rest IH]; simpl; auto.
  intros H. apply orb_false_iff in H. destruct H as [H1 H2].
  rewrite String.eqb_sym, H1. auto.
Qed.

End Dictionaries.

(** Induction on a document, through its lists and mappings. *)
Lemma json_ind (P : json -> Prop)
    (HNull : P JNull)
    (HBool : forall b, P (JBool b))
    (HNum : forall n, P (JNum n))
    (HStr : forall s, P (JStr s))
    (HList : forall l, Forall P l -> P (JList l))
    (HDict : forall d, Forall (fun kv => P (snd kv)) d -> P (JDict d)) :
  forall v, P v.
Proof.
  fix self 1.
  intros [ | b | n | s | l | d ].
  - exact HNull.
  - exact (HBool b).
  - exact (HNum n).
  - exact (HStr s).
  - apply HList. induction l as [|x l IH]; constructor.
    + exact (self x).
    + exact IH.
  - apply HDict. induction d as [|[k x] d IH]; constructor.
    + exact (self x).
    + exact IH.
Qed.

(** ** Dotted-path lookup *)

Section Lookup.

(** The loop of [_get_nested_value] raises nothing but what the handler
    catches, and finds what [find] finds. *)
Lemma walk_find (doc : json) (ks : list string) :
  match find doc ks with
  | Some v => walk doc ks = Ret v
  | None => walk doc ks = Raise KeyError \/ walk doc ks = Raise TypeError
  end.
Proof.
  revert doc. induction ks as [|k ks IH]; intros doc; simpl; auto.
  destruct doc; simpl; auto.
  destruct (dict_get d k) as [v|]; simpl; auto.
  apply IH.
Qed.

Lemma get_nested_value_find (doc : json) (key_path : string) :
  _get_nested_value doc key_path =
  Ret match find doc (split_dot key_path) with
      | Some v => v
      | None => JNull
      end.
Proof.
  unfold _get_nested_value.
  pose proof (walk_find doc (split_dot key_path)) as H.
  destruct (find doc (split_dot key_path)) as [v|].
  - now rewrite H.
  - destruct H as [H | H]; rewrite H; reflexivity.
Qed.

Lemma get_lookup (self : t) (key_path : string) (default : json) :
  get self key_path default = Ret (lookup self key_path default).
Proof.
  unfold get, lookup, non_null.
  rewrite !get_nested_value_find. simpl.
  destruct (find (local_config self) (split_dot key_path)) as [v|]; simpl.
  - destruct (is_None v) eqn:E; simpl; auto.
    destruct (find (shared_config self) (split_dot key_path)) as [v'|]; simpl;
      auto.
    destruct (is_None v'); auto.
  - destruct (find (shared_config self) (split_dot key_path)) as [v'|]; simpl;
      auto.
    destruct (is_None v'); auto.
Qed.

End Lookup.

(** ** Merging a user document into the defaults *)

Section Merge.

Lemma merge_items_total (u : dict) :
  Forall (fun kv => forall sub, is_dict (snd kv) = true ->
                    returns (_merge_configs sub (snd kv))) u ->
  forall result, returns (merge_items _merge_configs result u).
Proof.
  induction 1 as [|[k v] rest Hv _ IH]; intros result; simpl.
  - now exists result.
  - destruct (dict_get result k) as [[ | | | | | sub]|]; try apply IH.
    destruct v; try apply IH.
    destruct (Hv sub eq_refl) as [m Hm]. simpl in Hm. simpl.
    rewrite Hm. simpl. apply IH.
Qed.

Lemma merge_configs_total (user : json) :
  forall default, is_dict user = true -> returns (_merge_configs default user).
Proof.
  induction user using json_ind; intros default Hd; try discriminate.
  simpl. now apply merge_items_total.
Qed.

(** What one level of the merge leaves under each key. *)
Lemma merge_items_get (u : dict) :
  forall result merged k,
    nodup_keys (keys u) = true ->
    merge_items _merge_configs result u = Ret merged ->
    dict_get merged k =
    match dict_get u k with
    | None => dict_get result k
    | Some uv => merged_value (dict_get result k) uv
    end.
Proof.
  induction u as [|[k0 v0] rest IH]; intros result merged k Hnd Hm.
  - simpl in *. now inversion Hm.
  - simpl in Hnd. apply andb_true_iff in Hnd. destruct Hnd as [Hk0 Hnd].
    apply negb_true_iff in Hk0.
    assert (Hstep : exists x,
               merged_value (dict_get result k0) v0 = Some x /\
               merge_items _merge_configs (dict_set result k0 x) rest
               = Ret merged).
    { simpl in Hm. unfold merged_value.
      destruct (dict_get result k0) as [[ | | | | | sub]|]; eauto.
      destruct v0; eauto.
      destruct (_merge_configs sub (JDict d)) as [m|e]; simpl in Hm;
        [eauto | discriminate]. }
    destruct Hstep as (x & Hx & Hrest).
    rewrite (IH _ _ k Hnd Hrest). simpl.
    destruct (String.eqb k0 k) eqn:E.
    + apply String.eqb_eq in E. subst k0.
      rewrite (dict_get_absent _ _ Hk0), dict_get_set_same. now rewrite Hx.
    + apply String.eqb_neq in E. now rewrite dict_get_set_other.
Qed.

Lemma wf_dict_get (d : dict) (k : string) (v : json) :
  wf_json (JDict d) = true -> dict_get d k = Some v -> wf_json v = true.
Proof.
  simpl. intros H. apply andb_true_iff in H. destruct H as [_ H].
  induction d as [|[k0 v0] rest IH]; simpl; [discriminate|].
  apply andb_true_iff in H. destruct H as [H0 H].
  destruct (String.eqb k0 k); [intros [= <-]; assumption | auto].
Qed.

Lemma wf_dict_nodup (d : dict) :
  wf_json (JDict d) = true -> nodup_keys (keys d) = true.
Proof. simpl. intros H. now apply andb_true_iff in H. Qed.

Lemma find_cons_dict (v : json) (k : string) (ks : list string) (x : json) :
  find v (k :: ks) = Some x ->
  exists d c, v = JDict d /\ dict_get d k = Some c /\ find c ks = Some x.
Proof.
  simpl. destruct v; try discriminate.
  destruct (dict_get d k) as [c|] eqn:E; [|discriminate].
  intros H. now exists d, c.
Qed.

Lemma find_through_dict (c : json) (ks : list string) (x : json) :
  find c ks = Some x -> is_dict x = true -> is_dict c = true.
Proof.
  destruct ks as [|k ks]; simpl.
  - now intros [= ->].
  - destruct c; try discriminate. reflexivity.
Qed.

(** One level down: the key in the merged document. *)
Lemma merged_at_key (default u merged : dict) (k : string) :
  wf_json (JDict u) = true ->
  _merge_configs default (JDict u) = Ret merged ->
  dict_get merged k =
  match dict_get u k with
  | None => dict_get default k
  | Some uv => merged_value (dict_get default k) uv
  end.
Proof.
  intros Hwf Hm. apply merge_items_get; [now apply wf_dict_nodup | exact Hm].
Qed.

(** A value of the user document that is not a mapping is the merged value
    at its path. *)
Lemma merge_keeps_user_value (p : list string) :
  forall default u merged v,
    wf_json (JDict u) = true ->
    _merge_configs default (JDict u) = Ret merged ->
    find (JDict u) p = Some v -> is_dict v = false ->
    find (JDict merged) p = Some v.
Proof.
  induction p as [|k ps IH]; intros default u merged v Hwf Hm Hf Hv.
  - simpl in Hf. inversion Hf. subst v. discriminate.
  - apply find_cons_dict in Hf. destruct Hf as (d & uv & [= <-] & Hk & Hf).
    simpl. rewrite (merged_at_key _ _ _ k Hwf Hm), Hk.
    unfold merged_value.
    destruct (dict_get default k) as [[ | | | | | sub]|]; try exact Hf.
    destruct uv as [ | | | | | uu]; try exact Hf.
    destruct (_merge_configs sub (JDict uu)) as [m|e] eqn:Em.
    + apply (IH sub uu m v); auto. apply (wf_dict_get _ _ _ Hwf Hk).
    + destruct (merge_configs_total (JDict uu) sub eq_refl) as [m Hm'].
      congruence.
Qed.

(** Where both documents hold a mapping, the merged document holds the merge
    of the two. *)
Lemma merge_recurses (p : list string) :
  forall default u merged d' u',
    wf_json (JDict u) = true ->
    _merge_configs default (JDict u) = Ret merged ->
    find (JDict default) p = Some (JDict d') ->
    find (JDict u) p = Some (JDict u') ->
    exists m', _merge_configs d' (JDict u') = Ret m' /\
               find (JDict merged) p = Some (JDict m').
Proof.
  induction p as [|k ps IH]; intros default u merged d' u' Hwf Hm Hd Hu.
  - simpl in *. inversion Hd. inversion Hu. subst. now exists merged.
  - apply find_cons_dict in Hd. destruct Hd as (d0 & dv & [= <-] & Hdk & Hd).
    apply find_cons_dict in Hu. destruct Hu as (u0 & uv & [= <-] & Huk & Hu).
    pose proof (find_through_dict _ _ _ Hd eq_refl) as Hdv.
    pose proof (find_through_dict _ _ _ Hu eq_refl) as Huv.
    destruct dv as [ | | | | | sub]; try discriminate.
    destruct uv as [ | | | | | uu]; try discriminate.
    simpl. rewrite (merged_at_key _ _ _ k Hwf Hm), Huk, Hdk. simpl.
    destruct (merge_configs_total (JDict uu) sub eq_refl) as [m Hm'].
    simpl in Hm'. rewrite Hm'.
    apply (IH sub uu m d' u'); auto. apply (wf_dict_get _ _ _ Hwf Huk).
Qed.

Lemma mappings_before_tail (u : dict) (k : string) (ps : list string)
    (uv : json) :
  mappings_before (JDict u) (k :: ps) -> dict_get u k = Some uv ->
  mappings_before uv ps.
Proof.
  intros H Hk q r v Hp Hq Hr Hf.
  apply (H (k :: q) r v); subst; auto; try discriminate.
  simpl. now rewrite Hk.
Qed.

(** A path of the defaults stays in the merged document when the user
    document has mappings on the way to it; it keeps the default's value when
    the user document has nothing there. *)
Lemma merge_keeps_default_path (p : list string) :
  forall default u merged x,
    wf_json (JDict u) = true ->
    _merge_configs default (JDict u) = Ret merged ->
    find (JDict default) p = Some x ->
    mappings_before (JDict u) p ->
    (exists y, find (JDict merged) p = Some y) /\
    (find (JDict u) p = None -> find (JDict merged) p = Some x).
Proof.
  induction p as [|k ps IH]; intros default u merged x Hwf Hm Hd Hb.
  - simpl. split; [eauto | discriminate].
  - apply find_cons_dict in Hd. destruct Hd as (d0 & dv & [= <-] & Hdk & Hd).
    simpl. rewrite (merged_at_key _ _ _ k Hwf Hm), Hdk.
    destruct (dict_get u k) as [uv|] eqn:Huk.
    + destruct ps as [|k' ps'].
      * split; [|discriminate]. unfold merged_value.
        destruct dv; simpl; eauto. destruct uv; simpl; eauto.
        destruct (merge_configs_total (JDict d0) d eq_refl) as [m Hm'].
        simpl in Hm'. rewrite Hm'. eauto.
      * assert (Huv : is_dict uv = true).
        { apply (Hb [k] (k' :: ps') uv); auto; try discriminate.
          simpl. now rewrite Huk. }
        destruct (find_cons_dict _ _ _ _ Hd) as (sub & c & -> & _).
        destruct uv as [ | | | | | uu]; try discriminate.
        destruct (merge_configs_total (JDict uu) sub eq_refl) as [m Hm'].
        unfold merged_value. rewrite Hm'.
        apply (IH sub uu m x); auto.
        -- apply (wf_dict_get _ _ _ Hwf Huk).
        -- apply (mappings_before_tail _ _ _ _ Hb Huk).
    + rewrite Hd. split; eauto.
Qed.

End Merge.

(** ** Dotted-path assignment *)

Section Assignment.

Lemma settable_empty (k : string) (ks : list string) :
  settable (JDict []) (k :: ks) = true.
Proof. destruct ks; reflexivity. Qed.

Lemma settable_dict (doc : json) (ks : list string) :
  settable doc ks = true -> is_dict doc = true.
Proof.
  destruct ks as [|k [|k' ks]]; simpl; try discriminate; auto.
  destruct doc; auto.
Qed.

(** On a settable path the assignment returns, and the value is then found
    at the path. *)
Lemma set_walk_returns (ks : list string) :
  forall doc v,
    settable doc ks = true ->
    exists doc', set_walk doc ks v = Ret doc' /\ find doc' ks = Some v /\
                 is_dict doc' = true.
Proof.
  induction ks as [|k ks IH]; intros doc v Hs; [discriminate|].
  pose proof (settable_dict _ _ Hs) as Hd.
  destruct doc as [ | | | | | d]; try discriminate.
  destruct ks as [|k' ks'].
  - simpl. eexists. repeat split. now rewrite dict_get_set_same.
  - remember (k' :: ks') as rest eqn:Hrest.
    assert (Hstep : set_walk (JDict d) (k :: rest) v =
              let! present := contains (JDict d) k in
              let! current1 :=
                (if negb present then setitem (JDict d) k (JDict [])
                 else Ret (JDict d)) in
              let! child := getitem current1 k in
              let! child' := set_walk child rest v in
              Ret (with_member current1 k child')).
    { subst rest. reflexivity. }
    rewrite Hstep. clear Hstep. simpl. unfold dict_has.
    assert (Hs' : match dict_get d k with
                  | Some child => settable child rest = true
                  | None => True
                  end).
    { subst rest. simpl in Hs. destruct (dict_get d k); auto. }
    destruct (dict_get d k) as [child|] eqn:Hk; simpl.
    + rewrite Hk. simpl.
      destruct (IH child v Hs') as (child' & Hw & Hf & _).
      rewrite Hw. simpl. eexists. repeat split.
      now rewrite dict_get_set_same.
    + rewrite dict_get_set_same. simpl.
      assert (He : settable (JDict []) rest = true)
        by (subst rest; apply settable_empty).
      destruct (IH (JDict []) v He) as (child' & Hw & Hf & _).
      rewrite Hw. simpl. eexists. repeat split.
      now rewrite dict_get_set_same.
Qed.

(** A path that is present is settable. *)
Lemma find_settable (ks : list string) :
  forall doc x, ks <> [] -> find doc ks = Some x -> settable doc ks = true.
Proof.
  induction ks as [|k ks IH]; intros doc x Hne Hf; [congruence|].
  apply find_cons_dict in Hf. destruct Hf as (d & c & -> & Hk & Hf).
  destruct ks as [|k' ks']; [reflexivity|].
  simpl. rewrite Hk. apply (IH c x); [discriminate | exact Hf].
Qed.

(** Off a settable path the assignment raises [TypeError]. *)
Lemma set_walk_raises (ks : list string) :
  forall doc v,
    ks <> [] -> settable doc ks = false -> set_walk doc ks v = Raise TypeError.
Proof.
  induction ks as [|k ks IH]; intros doc v Hne Hs; [congruence|].
  destruct ks as [|k' ks'].
  - simpl in *. destruct doc; try reflexivity. discriminate.
  - remember (k' :: ks') as rest eqn:Hrest.
    assert (Hstep : set_walk doc (k :: rest) v =
              let! present := contains doc k in
              let! current1 :=
                (if negb present then setitem doc k (JDict [])
                 else Ret doc) in
              let! child := getitem current1 k in
              let! child' := set_walk child rest v in
              Ret (with_member current1 k child')).
    { subst rest. reflexivity. }
    rewrite Hstep. clear Hstep.
    destruct doc as [ | | | | l | d]; simpl; try reflexivity.
    + destruct (is_substring k s); reflexivity.
    + destruct (existsb _ l); reflexivity.
    + assert (Hs' : exists child, dict_get d k = Some child /\
                                  settable child rest = false).
      { subst rest. simpl in Hs. destruct (dict_get d k); [eauto|discriminate]. }
      destruct Hs' as (child & Hk & Hc). unfold dict_has. rewrite Hk. simpl.
      rewrite Hk. simpl. rewrite (IH child v); [reflexivity | | exact Hc].
      subst rest. discriminate.
Qed.

Lemma split_dot_nonempty (s : string) : split_dot s <> [].
Proof.
  destruct s as [|c s]; simpl; [discriminate|].
  destruct (Ascii.eqb c "."); [discriminate|].
  destruct (split_dot s); discriminate.
Qed.

Lemma nodup_keys_snoc (ks : list string) (k : string) :
  nodup_keys ks = true -> existsb (String.eqb k) ks = false ->
  nodup_keys (ks ++ [k]) = true.
Proof.
  induction ks as [|k0 ks IH]; simpl; auto.
  intros H Hk. apply andb_true_iff in H. destruct H as [H0 H].
  apply orb_false_iff in Hk. destruct Hk as [Hk0 Hk].
  rewrite IH by assumption. rewrite andb_true_r.
  rewrite existsb_app. simpl. rewrite orb_false_r.
  apply negb_true_iff in H0. rewrite H0. simpl.
  now rewrite String.eqb_sym, Hk0.
Qed.

Lemma keys_dict_set (d : dict) (k : string) (v : json) :
  keys (dict_set d k v) =
  if existsb (String.eqb k) (keys d) then keys d else keys d ++ [k].
Proof.
  induction d as [|[k0 v0] rest IH]; simpl; auto.
  rewrite (String.eqb_sym k k0).
  destruct (String.eqb k0 k) eqn:E; simpl; auto.
  rewrite IH. destruct (existsb (String.eqb k) (keys rest)); reflexivity.
Qed.

Lemma wf_values (d : dict) :
  (fix all (d : dict) : bool :=
     match d with
     | [] => true
     | (_, x) :: rest => wf_json x && all rest
     end) d = forallb (fun kv => wf_json (snd kv)) d.
Proof.
  induction d as [|[k v] rest IH]; simpl; auto. now rewrite IH.
Qed.

Lemma wf_dict_set (d : dict) (k : string) (v : json) :
  wf_json (JDict d) = true -> wf_json v = true ->
  wf_json (JDict (dict_set d k v)) = true.
Proof.
  simpl. rewrite !wf_values. intros H Hv.
  apply andb_true_iff in H. destruct H as [Hn Ha].
  apply andb_true_iff. split.
  - rewrite keys_dict_set.
    destruct (existsb (String.eqb k) (keys d)) eqn:E; auto.
    now apply nodup_keys_snoc.
  - clear Hn. induction d as [|[k0 v0] rest IH]; simpl in *.
    + now rewrite Hv.
    + apply andb_true_iff in Ha. destruct Ha as [H0 Ha].
      destruct (String.eqb k0 k); simpl.
      * now rewrite Hv, Ha.
      * now rewrite H0, IH.
Qed.

Lemma wf_set_walk (ks : list string) :
  forall doc v doc',
    wf_json doc = true -> wf_json v = true ->
    set_walk doc ks v = Ret doc' -> wf_json doc' = true.
Proof.
  induction ks as [|k ks IH]; intros doc v doc' Hwf Hv Hw; [discriminate|].
  destruct (settable doc (k :: ks)) eqn:Hs.
  2:{ rewrite set_walk_raises in Hw; [discriminate | discriminate | exact Hs]. }
  pose proof (settable_dict _ _ Hs) as Hd.
  destruct doc as [ | | | | | d]; try discriminate.
  destruct ks as [|k' ks'].
  - simpl in Hw. inversion Hw. now apply wf_dict_set.
  - remember (k' :: ks') as rest eqn:Hrest.
    assert (Hstep : set_walk (JDict d) (k :: rest) v =
              let! present := contains (JDict d) k in
              let! current1 :=
                (if negb present then setitem (JDict d) k (JDict [])
                 else Ret (JDict d)) in
              let! child := getitem current1 k in
              let! child' := set_walk child rest v in
              Ret (with_member current1 k child')).
    { subst rest. reflexivity. }
    rewrite Hstep in Hw. clear Hstep. simpl in Hw. unfold dict_has in Hw.
    destruct (dict_get d k) as [child|] eqn:Hk; simpl in Hw.
    + rewrite Hk in Hw. simpl in Hw.
      destruct (set_walk child rest v) as [child'|] eqn:Hc; [|discriminate].
      simpl in Hw. inversion Hw. apply wf_dict_set; auto.
      apply (IH child v child'); auto. apply (wf_dict_get _ _ _ Hwf Hk).
    + rewrite dict_get_set_same in Hw. simpl in Hw.
      destruct (set_walk (JDict []) rest v) as [child'|] eqn:Hc;
        [|discriminate].
      simpl in Hw. inversion Hw. apply wf_dict_set.
      * now apply wf_dict_set.
      * apply (IH (JDict []) v child'); auto.
Qed.

End Assignment.

(** ** Recent projects *)

Section RecentProjects.

Lemma get_method_title (p : json) :
  is_dict p = true -> get_method p "title" = Ret (title p).
Proof.
  destruct p; try discriminate. intros _. simpl.
  destruct (dict_get d "title"); reflexivity.
Qed.

Lemma has_title_dict (p : json) : has_title p = true -> is_dict p = true.
Proof. destruct p; auto. Qed.

Lemma without_title_filter (l : list json) (r : json) :
  Forall (fun p => is_dict p = true) l -> is_dict r = true ->
  without_title l r = Ret (filter (fun p => negb (same_title p r)) l).
Proof.
  intros Hl Hr. induction Hl as [|p l Hp _ IH]; simpl; auto.
  rewrite (get_method_title p Hp), (get_method_title r Hr), IH. simpl.
  unfold same_title. destruct (py_eqb (title p) (title r)); reflexivity.
Qed.

Lemma forallb_filter_same {A : Type} (P : A -> bool) (l : list A) :
  forallb P (filter P l) = true.
Proof.
  induction l as [|x l IH]; simpl; auto.
  destruct (P x) eqn:E; simpl; auto. now rewrite E.
Qed.

Lemma forallb_filter {A : Type} (P Q : A -> bool) (l : list A) :
  forallb P l = true -> forallb P (filter Q l) = true.
Proof.
  induction l as [|x l IH]; simpl; auto.
  intros H. apply andb_true_iff in H. destruct H as [Hx H].
  destruct (Q x); simpl; auto. now rewrite Hx, IH.
Qed.

Lemma forallb_firstn {A : Type} (P : A -> bool) (n : nat) (l : list A) :
  forallb P l = true -> forallb P (firstn n l) = true.
Proof.
  revert l. induction n as [|n IH]; intros [|x l]; simpl; auto.
  intros H. apply andb_true_iff in H. destruct H as [Hx H].
  now rewrite Hx, IH.
Qed.

Lemma filter_all {A : Type} (P : A -> bool) (l : list A) :
  forallb P l = true -> filter P l = l.
Proof.
  induction l as [|x l IH]; simpl; auto.
  intros H. apply andb_true_iff in H. destruct H as [Hx H].
  now rewrite Hx, IH.
Qed.

Lemma distinct_filter (Q : json -> bool) (l : list json) :
  distinct_titles l = true -> distinct_titles (filter Q l) = true.
Proof.
  induction l as [|p l IH]; simpl; auto.
  intros H. apply andb_true_iff in H. destruct H as [Hp H].
  destruct (Q p); simpl; auto.
  now rewrite forallb_filter, IH.
Qed.

Lemma distinct_firstn (n : nat) (l : list json) :
  distinct_titles l = true -> distinct_titles (firstn n l) = true.
Proof.
  revert l. induction n as [|n IH]; intros [|p l]; simpl; auto.
  intros H. apply andb_true_iff in H. destruct H as [Hp H].
  now rewrite forallb_firstn, IH.
Qed.

Lemma distinct_push (l : list json) (r : json) :
  distinct_titles l = true -> distinct_titles (push l r) = true.
Proof.
  intros H. unfold push. apply distinct_firstn. simpl.
  now rewrite forallb_filter_same, distinct_filter.
Qed.

Lemma push_head (l : list json) (r : json) :
  push l r = r :: firstn 9 (filter (fun p => negb (same_title p r)) l).
Proof. reflexivity. Qed.

Lemma push_length (l : list json) (r : json) :
  (List.length (push l r) <= 10)%nat.
Proof. unfold push. apply firstn_le_length. Qed.

Lemma Forall_firstn {A : Type} (P : A -> Prop) (n : nat) (l : list A) :
  Forall P l -> Forall P (firstn n l).
Proof.
  intros H. revert n. induction H as [|x l Hx _ IH]; intros [|n]; simpl;
    constructor; auto.
Qed.

Lemma Forall_filter {A : Type} (P : A -> Prop) (Q : A -> bool) (l : list A) :
  Forall P l -> Forall P (filter Q l).
Proof.
  induction 1 as [|x l Hx _ IH]; simpl; auto.
  destruct (Q x); auto.
Qed.

Lemma push_dicts (l : list json) (r : json) :
  Forall (fun p => is_dict p = true) l -> is_dict r = true ->
  Forall (fun p => is_dict p = true) (push l r).
Proof.
  intros Hl Hr. unfold push. apply Forall_firstn. constructor; auto.
  now apply Forall_filter.
Qed.

Lemma save_local_config_returns (self : t) (w : world) :
  exists b w', save_local_config self w = (Ret b, w') /\
    (local_write_error w = None ->
     b = true /\ w' = set_local_file w (JsonText (local_config self))).
Proof.
  unfold save_local_config, try_exceptM, bindM, write_local, print, ret.
  destruct (local_write_error w) as [[e|e]|]; simpl.
  - do 2 eexists. split; [reflexivity | discriminate].
  - do 2 eexists. split; [reflexivity | discriminate].
  - do 2 eexists. split; [reflexivity | auto].
Qed.

Lemma save_shared_config_returns (self : t) (w : world) :
  exists b w', save_shared_config self w = (Ret b, w') /\
    (shared_write_error w = None ->
     b = true /\ w' = set_shared_file w (JsonText (shared_config self))).
Proof.
  unfold save_shared_config, try_exceptM, bindM, write_shared, print, ret.
  destruct (shared_write_error w) as [[e|e]|]; simpl.
  - do 2 eexists. split; [reflexivity | discriminate].
  - do 2 eexists. split; [reflexivity | discriminate].
  - do 2 eexists. split; [reflexivity | auto].
Qed.

(** Assigning at a settable path of the local document. *)
Lemma set_local_returns (self : t) (key_path : string) (v : json) :
  settable (local_config self) (split_dot key_path) = true ->
  exists doc,
    set_local self key_path v = Ret (mk (shared_config self) doc) /\
    find doc (split_dot key_path) = Some v /\ is_dict doc = true /\
    (wf_json (local_config self) = true -> wf_json v = true ->
     wf_json doc = true).
Proof.
  intros Hs. unfold set_local, _set_nested_value.
  destruct (set_walk_returns _ _ v Hs) as (doc & Hw & Hf & Hd).
  exists doc. rewrite Hw. simpl. repeat split; auto.
  intros Hwf Hv. apply (wf_set_walk _ _ _ _ Hwf Hv Hw).
Qed.

Lemma stored_recent_projects (self : t) (l : list json) :
  find (local_config self) recent_path = Some (JList l) ->
  get_recent_projects self = Ret (JList l) /\
  settable (local_config self) recent_path = true.
Proof.
  intros Hf. split.
  - unfold get_recent_projects. rewrite get_lookup. unfold lookup, non_null.
    change (split_dot "user_preferences.recent_projects") with recent_path.
    now rewrite Hf.
  - apply (find_settable _ _ (JList l)); [discriminate | exact Hf].
Qed.

(** One call of [add_recent_project]. *)
Lemma add_recent_project_step (self : t) (w : world) (r : json)
    (l : list json) :
  get_recent_projects self = Ret (JList l) ->
  settable (local_config self) recent_path = true ->
  Forall (fun p => is_dict p = true) l -> is_dict r = true ->
  exists self' w',
    add_recent_project self r w = (Ret self', w') /\
    find (local_config self') recent_path = Some (JList (push l r)) /\
    shared_config self' = shared_config self.
Proof.
  intros Hg Hs Hl Hr.
  unfold add_recent_project, bindM, lift.
  unfold get_recent_projects in Hg. rewrite Hg. cbn [iterate].
  rewrite (without_title_filter l r Hl Hr).
  destruct (set_local_returns self "user_preferences.recent_projects"
              (JList (push l r)) Hs) as (doc & Hset & Hfd & _).
  unfold push in Hset. rewrite Hset.
  destruct (save_local_config_returns (mk (shared_config self) doc) w)
    as (b & w' & Hsave & _).
  rewrite Hsave. unfold ret. do 2 eexists. repeat split. exact Hfd.
Qed.

Lemma add_all_fold (records : list json) :
  forall self w l,
    get_recent_projects self = Ret (JList l) ->
    settable (local_config self) recent_path = true ->
    Forall (fun p => is_dict p = true) l ->
    Forall (fun p => has_title p = true) records ->
    exists self' w',
      add_all self records w = (Ret self', w') /\
      get_recent_projects self' = Ret (JList (fold_left push records l)) /\
      (records <> [] ->
       find (local_config self') recent_path
       = Some (JList (fold_left push records l))).
Proof.
  induction records as [|r rest IH]; intros self w l Hg Hs Hl Hrs.
  - simpl. unfold ret. exists self, w. repeat split; auto. congruence.
  - inversion Hrs as [|? ? Hr Hrest]. subst.
    apply has_title_dict in Hr.
    destruct (add_recent_project_step self w r l Hg Hs Hl Hr)
      as (self1 & w1 & Hadd & Hf1 & _).
    destruct (stored_recent_projects self1 _ Hf1) as [Hg1 Hs1].
    destruct (IH self1 w1 (push l r) Hg1 Hs1 (push_dicts _ _ Hl Hr) Hrest)
      as (self' & w' & Hall & Hg' & Hf').
    exists self', w'. simpl. unfold bindM. rewrite Hadd.
    repeat split; auto. intros _.
    destruct rest as [|r2 rest']; [|apply Hf'; discriminate].
    simpl in Hall. unfold ret in Hall. inversion Hall. subst. exact Hf1.
Qed.

Lemma fold_push_distinct (records : list json) :
  forall l, distinct_titles l = true ->
            distinct_titles (fold_left push records l) = true.
Proof.
  induction records as [|r rest IH]; intros l H; simpl; auto.
  apply IH. now apply distinct_push.
Qed.

Lemma fold_push_head (records : list json) :
  forall l, records <> [] ->
    exists tl,
      fold_left push records l = last records JNull :: tl /\
      forallb (fun q => negb (same_title q (last records JNull))) tl = true /\
      (List.length (fold_left push records l) <= 10)%nat.
Proof.
  induction records as [|r rest IH]; intros l Hne; [congruence|].
  destruct rest as [|r2 rest'].
  - simpl. eexists. split; [apply push_head|]. split.
    + apply forallb_firstn, forallb_filter_same.
    + apply (push_length l r).
  - change (fold_left push (r :: r2 :: rest') l)
      with (fold_left push (r2 :: rest') (push l r)).
    change (last (r :: r2 :: rest') JNull) with (last (r2 :: rest') JNull).
    apply IH. discriminate.
Qed.

Lemma firstn_cons_firstn {A : Type} (x : A) (l : list A) :
  firstn 10 (x :: firstn 10 l) = firstn 10 (x :: l).
Proof.
  change (x :: firstn 9 (firstn 10 l) = x :: firstn 9 l).
  f_equal. rewrite firstn_firstn. reflexivity.
Qed.

(** Records with new titles pile up, the latest first. *)
Lemma fold_push_all_new (records : list json) :
  forall seen,
    all_new seen records = true ->
    fold_left push records (firstn 10 seen)
    = firstn 10 (rev records ++ seen).
Proof.
  induction records as [|r rest IH]; intros seen H; simpl; auto.
  simpl in H. apply andb_true_iff in H. destruct H as [Hr H].
  unfold push at 2.
  rewrite (filter_all _ (firstn 10 seen)) by now apply forallb_firstn.
  rewrite firstn_cons_firstn, (IH (r :: seen) H), <- app_assoc.
  reflexivity.
Qed.

Lemma fold_push_all_new_from (records : list json) (l : list json) :
  records <> [] -> all_new l records = true ->
  fold_left push records l = firstn 10 (rev records ++ l).
Proof.
  destruct records as [|r rest]; [congruence|]. intros _ H.
  simpl in H. apply andb_true_iff in H. destruct H as [Hr H].
  simpl. unfold push at 2. rewrite (filter_all _ l Hr).
  rewrite (fold_push_all_new rest (r :: l) H), <- app_assoc. reflexivity.
Qed.

End RecentProjects.

(** ** Lines of text *)

Section Lines.

Local Open Scope N_scope.

Lemma text_eqb_eq (a b : text) : text_eqb a b = true <-> a = b.
Proof.
  revert b. induction a as [|x a IH]; intros [|y b]; simpl; split;
    try discriminate; auto.
  - intros H. apply andb_true_iff in H. destruct H as [H1 H2].
    apply N.eqb_eq in H1. apply IH in H2. now subst.
  - intros [= -> ->]. rewrite N.eqb_refl. now apply IH.
Qed.

Lemma text_eqb_refl (a : text) : text_eqb a a = true.
Proof. now apply text_eqb_eq. Qed.

Lemma mem_In (e : text) (l : list text) : mem e l = true <-> In e l.
Proof.
  unfold mem. rewrite existsb_exists. split.
  - intros (x & Hx & He). apply text_eqb_eq in He. now subst.
  - intros H. exists e. split; auto. apply text_eqb_refl.
Qed.

Lemma mem_app (e : text) (l1 l2 : list text) :
  mem e (l1 ++ l2) = mem e l1 || mem e l2.
Proof. apply existsb_app. Qed.

Lemma splitlines_crlf (rest : text) :
  splitlines (CR :: LF :: rest) = [] :: splitlines rest.
Proof. reflexivity. Qed.

Lemma splitlines_break (c : N) (rest : text) :
  is_linebreak c = true ->
  (forall rest', c = CR -> rest <> LF :: rest') ->
  splitlines (c :: rest) = [] :: splitlines rest.
Proof.
  intros Hc Hn. cbn [splitlines]. rewrite Hc.
  destruct rest as [|c' rest']; auto.
  destruct ((c =? CR) && (c' =? LF)) eqn:F; auto.
  apply andb_true_iff in F. destruct F as [F1 F2].
  apply N.eqb_eq in F1, F2. subst. now destruct (Hn rest' eq_refl).
Qed.

Lemma splitlines_char (c : N) (rest : text) :
  is_linebreak c = false ->
  splitlines (c :: rest) = cons_to_first c (splitlines rest).
Proof. intros Hc. cbn [splitlines]. now rewrite Hc. Qed.

(** Case analysis along the recursion of [splitlines]. *)
Lemma splitlines_cases (P : text -> Prop) :
  P [] ->
  (forall rest, P rest -> P (CR :: LF :: rest)) ->
  (forall c rest, is_linebreak c = true ->
                  (forall rest', c = CR -> rest <> LF :: rest') ->
                  P rest -> P (c :: rest)) ->
  (forall c rest, is_linebreak c = false -> P rest -> P (c :: rest)) ->
  forall a, P a.
Proof.
  intros H0 H1 H2 H3 a.
  assert (H : forall n a, (List.length a <= n)%nat -> P a).
  { clear a. induction n as [|n IH]; intros [|c rest] Hl; simpl in Hl;
      auto; try lia.
    destruct (is_linebreak c) eqn:E.
    - destruct (N.eq_dec c CR) as [->|Hc].
      + destruct rest as [|c' rest'].
        * apply H2; [exact E | discriminate | exact H0].
        * destruct (N.eq_dec c' LF) as [->|Hc'].
          -- apply H1. apply IH. simpl in Hl. lia.
          -- apply H2; [exact E | | apply IH; lia].
             intros r _ [= ? ?]. auto.
      + apply H2; [exact E | | apply IH; lia].
        intros r Hr. now destruct Hc.
    - apply H3; [exact E | apply IH; lia]. }
  apply (H (List.length a)). lia.
Qed.

Lemma splitlines_nil (a : text) : splitlines a = [] -> a = [].
Proof.
  destruct a as [|c rest]; auto. cbn [splitlines].
  destruct (is_linebreak c); [discriminate|].
  destruct (splitlines rest); discriminate.
Qed.

Lemma cons_to_first_app (c : N) (l1 l2 : list text) :
  l1 <> [] -> cons_to_first c (l1 ++ l2) = cons_to_first c l1 ++ l2.
Proof. destruct l1; [congruence | reflexivity]. Qed.

Lemma last_cons_to_first (c : N) (l : list text) :
  last (cons_to_first c l) [] = [] -> l <> [] /\ last l [] = [].
Proof.
  destruct l as [|x [|y l']]; simpl; try discriminate.
  intros H. split; [discriminate | exact H].
Qed.

(** A line without boundaries, closed by a line feed, is one line. *)
Lemma splitlines_line (e t : text) :
  no_break e = true -> splitlines (e ++ LF :: t) = e :: splitlines t.
Proof.
  induction e as [|c e IH]; intros H.
  - cbn [app]. apply splitlines_break; [reflexivity | discriminate].
  - simpl in H. apply andb_true_iff in H. destruct H as [Hc H].
    apply negb_true_iff in Hc. cbn [app].
    rewrite (splitlines_char _ _ Hc), (IH H). reflexivity.
Qed.

Lemma join_lines_cons (e e' : text) (rest : list text) :
  join_lines (e :: e' :: rest) = e ++ LF :: join_lines (e' :: rest).
Proof. reflexivity. Qed.

Lemma splitlines_block (es : list text) :
  es <> [] -> forallb no_break es = true ->
  splitlines (join_lines es ++ [LF]) = es.
Proof.
  induction es as [|e es IH]; intros Hne H; [congruence|].
  simpl in H. apply andb_true_iff in H. destruct H as [He H].
  destruct es as [|e' rest].
  - simpl join_lines. now rewrite (splitlines_line _ _ He).
  - assert (Hj : join_lines (e :: e' :: rest) ++ [LF]
                 = e ++ LF :: (join_lines (e' :: rest) ++ [LF])).
    { rewrite join_lines_cons, <- app_assoc. reflexivity. }
    rewrite Hj, (splitlines_line _ _ He), IH; auto. discriminate.
Qed.

(** Text appended after an empty last line starts new lines. *)
Lemma splitlines_app_after_blank (x : N) (b : text) :
  is_linebreak x = false ->
  forall a,
    a <> [] -> last (splitlines a) [] = [] ->
    splitlines (a ++ x :: b) = splitlines a ++ splitlines (x :: b).
Proof.
  intros Hx a. pattern a. apply splitlines_cases; clear a.
  - congruence.
  - intros rest IH _ Hl. cbn [app]. rewrite !splitlines_crlf.
    destruct rest as [|c r]; [reflexivity|].
    rewrite IH; [reflexivity | discriminate |].
    rewrite splitlines_crlf in Hl.
    destruct (splitlines (c :: r)) eqn:E; [|exact Hl].
    apply splitlines_nil in E. discriminate.
  - intros c rest Hc Hn IH _ Hl. cbn [app].
    rewrite (splitlines_break c rest Hc Hn) in Hl |- *.
    destruct rest as [|c' r].
    + cbn [app]. rewrite splitlines_break; [reflexivity | exact Hc |].
      intros r _ [= -> _]. discriminate.
    + rewrite splitlines_break; [| exact Hc |].
      * rewrite IH; [reflexivity | discriminate |].
        destruct (splitlines (c' :: r)) eqn:E; [|exact Hl].
        apply splitlines_nil in E. discriminate.
      * intros r' Hcr [= -> _]. now apply (Hn r).
  - intros c rest Hc IH _ Hl. cbn [app].
    rewrite (splitlines_char c (rest ++ x :: b) Hc).
    rewrite (splitlines_char c rest Hc) in Hl |- *.
    apply last_cons_to_first in Hl. destruct Hl as [Hne Hl].
    assert (Hr : rest <> []) by (intros ->; now apply Hne).
    rewrite (IH Hr Hl). now apply cons_to_first_app.
Qed.

(** Text appended after a line feed starts new lines; the line feed adds an
    empty line when the text before it ended at a line boundary. *)
Lemma splitlines_app_after_newline (b : text) :
  forall a, exists mid,
    (mid = [] \/ mid = [[]]) /\
    splitlines (a ++ LF :: b) = splitlines a ++ mid ++ splitlines b.
Proof.
  assert (HLF : splitlines (LF :: b) = [] :: splitlines b).
  { apply splitlines_break; [reflexivity | discriminate]. }
  intros a. pattern a. apply splitlines_cases; clear a.
  - exists [[]]. split; auto.
  - intros rest [mid [Hmid IH]]. exists mid. split; auto.
    cbn [app]. rewrite !splitlines_crlf, IH. reflexivity.
  - intros c rest Hc Hn [mid [Hmid IH]].
    destruct rest as [|c' r].
    + cbn [app]. destruct (N.eq_dec c CR) as [->|Hcr].
      * exists []. split; auto.
      * exists [[]]. split; auto.
        rewrite (splitlines_break c [] Hc Hn).
        rewrite splitlines_break; [now rewrite HLF | exact Hc |].
        intros r Hr. now destruct Hcr.
    + exists mid. split; auto. cbn [app].
      rewrite (splitlines_break c (c' :: r) Hc Hn).
      rewrite splitlines_break; [| exact Hc |].
      * cbn [app] in IH. now rewrite IH.
      * intros r' Hcr [= -> _]. now apply (Hn r).
  - intros c rest Hc [mid [Hmid IH]]. cbn [app].
    rewrite !(splitlines_char _ _ Hc).
    destruct rest as [|c' r].
    + exists []. split; auto. cbn [app]. now rewrite HLF.
    + exists mid. split; auto. rewrite IH. apply cons_to_first_app.
      intros E. apply splitlines_nil in E. discriminate.
Qed.

End Lines.

(** ** The [.gitignore] block *)

Section Gitignore.

Lemma entries_facts :
  forallb (fun e =>
             no_break e &&
             (text_eqb (strip e) [] ||
              (negb (text_eqb e []) &&
               Nat.eqb (count e entries_to_add) 1)))
    entries_to_add = true.
Proof. vm_compute. reflexivity. Qed.

Lemma fixed_line_facts (e : text) :
  fixed_line e ->
  no_break e = true /\ e <> [] /\ count e entries_to_add = 1%nat.
Proof.
  intros [Hin Hs].
  pose proof entries_facts as H. rewrite forallb_forall in H.
  specialize (H e Hin). apply andb_true_iff in H. destruct H as [Hnb H].
  apply orb_true_iff in H. destruct H as [H | H].
  - apply text_eqb_eq in H. contradiction.
  - apply andb_true_iff in H. destruct H as [Hne Hc].
    apply Nat.eqb_eq in Hc. repeat split; auto.
    intros ->. discriminate.
Qed.

Lemma needed_entries_In (existing : list text) (e : text) :
  In e (needed_entries existing) <-> fixed_line e /\ ~ In e existing.
Proof.
  unfold needed_entries, fixed_line. rewrite filter_In, andb_true_iff.
  rewrite !negb_true_iff. split.
  - intros (Hin & Hm & Hs). repeat split; auto.
    + intros E. apply text_eqb_eq in E. congruence.
    + intros H. apply mem_In in H. congruence.
  - intros ((Hin & Hs) & Hm). repeat split; auto.
    + destruct (mem e existing) eqn:E; auto. apply mem_In in E. contradiction.
    + destruct (text_eqb (strip e) []) eqn:E; auto.
      apply text_eqb_eq in E. contradiction.
Qed.

Lemma needed_entries_no_break (existing : list text) :
  forallb no_break (needed_entries existing) = true.
Proof.
  apply forallb_forall. intros e He.
  apply needed_entries_In in He. destruct He as [He _].
  now apply fixed_line_facts.
Qed.

Lemma block_head (existing : list text) :
  needed_entries existing <> [] ->
  exists x b, block (needed_entries existing) = x :: b /\
              is_linebreak x = false.
Proof.
  intros Hne.
  destruct (needed_entries existing) as [|e rest] eqn:E; [congruence|].
  assert (He : In e (needed_entries existing)) by (rewrite E; now left).
  apply needed_entries_In in He. destruct He as [He _].
  apply fixed_line_facts in He. destruct He as (Hnb & Hn & _).
  destruct e as [|x e']; [congruence|].
  simpl in Hnb. apply andb_true_iff in Hnb. destruct Hnb as [Hx _].
  apply negb_true_iff in Hx.
  exists x. unfold block. destruct rest as [|e2 rest'].
  - exists (e' ++ [LF]). auto.
  - exists ((e' ++ LF :: join_lines (e2 :: rest')) ++ [LF]). auto.
Qed.

(** The lines of the file after the block was appended. *)
Lemma lines_after_append (old : text) :
  needed_entries (splitlines old) <> [] ->
  exists mid,
    (mid = [] \/ mid = [[]]) /\
    splitlines (old ++ separator (splitlines old)
                  ++ block (needed_entries (splitlines old)))
    = splitlines old ++ mid ++ needed_entries (splitlines old).
Proof.
  intros Hne.
  assert (Hb : splitlines (block (needed_entries (splitlines old)))
               = needed_entries (splitlines old)).
  { apply splitlines_block; [exact Hne | apply needed_entries_no_break]. }
  destruct (block_head _ Hne) as (x & b & Hxb & Hx).
  remember (needed_entries (splitlines old)) as needed eqn:Hn.
  clear Hn Hne.
  destruct (splitlines old) as [|l0 ls] eqn:E.
  - apply splitlines_nil in E. subst old. exists []. split; auto.
  - unfold separator.
    destruct (text_eqb (last (l0 :: ls) []) []) eqn:El; cbn [negb].
    + apply text_eqb_eq in El. exists []. split; auto.
      cbn [app]. rewrite Hxb.
      rewrite splitlines_app_after_blank; auto.
      * now rewrite <- Hxb, Hb, E.
      * intros ->. discriminate.
      * now rewrite E.
    + destruct (splitlines_app_after_newline (block needed) old)
        as (mid & Hmid & Hs).
      exists mid. split; auto. cbn [app]. now rewrite Hs, Hb, E.
Qed.

Lemma create_gitignore_run (self : t) (w : world) :
  gitignore_error w = None ->
  create_gitignore self w =
  (Ret tt,
   match needed_entries (lines w) with
   | [] => w
   | _ :: _ =>
       set_gitignore w
         (Some (content w ++ separator (lines w)
                  ++ block (needed_entries (lines w))))
   end).
Proof.
  intros He. unfold create_gitignore, bindM, read_gitignore_lines, lines,
    content, append_gitignore, ret, separator, block.
  rewrite He. destruct (gitignore w) as [c|] eqn:Eg; cbn [splitlines].
  - destruct (needed_entries (splitlines c)); [reflexivity|].
    rewrite He, Eg. reflexivity.
  - destruct (needed_entries []); [reflexivity|].
    rewrite He, Eg. reflexivity.
Qed.

Lemma filter_nil {A : Type} (Q : A -> bool) (l : list A) :
  (forall x, In x l -> Q x = false) -> filter Q l = [].
Proof.
  induction l as [|x l IH]; simpl; auto. intros H.
  rewrite (H x) by now left. apply IH. intros y Hy. apply H. now right.
Qed.

Lemma count_app (e : text) (l1 l2 : list text) :
  count e (l1 ++ l2) = (count e l1 + count e l2)%nat.
Proof. unfold count. now rewrite filter_app, length_app. Qed.

Lemma count_filter (e : text) (Q : text -> bool) (l : list text) :
  count e (filter Q l) = if Q e then count e l else 0%nat.
Proof.
  unfold count. induction l as [|x l IH]; simpl.
  - now destruct (Q e).
  - destruct (text_eqb e x) eqn:E.
    + apply text_eqb_eq in E. subst x.
      destruct (Q e) eqn:F; simpl.
      * rewrite text_eqb_refl. simpl. now rewrite IH.
      * exact IH.
    + destruct (Q x); simpl; [rewrite E|]; exact IH.
Qed.

Lemma count_mem (e : text) (l : list text) :
  if mem e l then (1 <= count e l)%nat else count e l = 0%nat.
Proof.
  unfold mem, count. induction l as [|x l IH]; simpl; auto.
  destruct (text_eqb e x); simpl; [lia|exact IH].
Qed.

End Gitignore.

(** ** The claims *)

(** *** C3: lookup precedence *)

(** C3. For every dotted path and default value, [get(path, default)]
    returns the local document's value at the path when it is present and
    non-null, otherwise the shared document's value when present and
    non-null, otherwise the default; a component that is absent, or looked up
    in a value that is not a mapping, counts as not found ([lookup], built on
    [find]). With the default [None] this is [lookup self path JNull]. *)
Theorem get_precedence (self : t) (key_path : string) (default : json) :
  get self key_path default = Ret (lookup self key_path default).
Proof. apply get_lookup. Qed.

(** On the store built from no files, [get] returns the built-in
    defaults. *)
Example fresh_store_defaults :
  exists self,
    __init__ empty_world = (Ret self, empty_world) /\
    get self "app.title" JNull = Ret (JStr "Kindle2Markdown") /\
    get self "capture.default_region.width" JNull = Ret (JNum 1920) /\
    get self "paths.save_folder" JNull = Ret (JStr "/home/user/Desktop") /\
    get self "app.title.x" (JNum 7) = Ret (JNum 7).
Proof. eexists. repeat split; reflexivity. Qed.

(** *** C2: merge *)

(** C2, as stated, fails: a scalar in the user document replaces a mapping
    of the defaults, and the default's key paths below it are gone. *)
Lemma merge_drops_default_path :
  exists merged,
    _merge_configs (default_local_config "D") (JDict [("paths", JStr "x")])
    = Ret merged /\
    find (JDict (default_local_config "D")) ["paths"; "save_folder"] <> None /\
    find (JDict merged) ["paths"; "save_folder"] = None.
Proof.
  eexists. split; [reflexivity|]. split; [discriminate | reflexivity].
Qed.

(** C2, amended. For every user document that is a mapping, the merge
    returns a document in which
    - every key path of the defaults is present, provided the user document
      has mappings wherever it has a value on the way to that path, and the
      path keeps the default's value when the user document has nothing
      there;
    - a value of the user document that is not a mapping is the merged value
      at its path;
    - where both documents hold a mapping, the merged value is the merge of
      the two. *)
Theorem merge_configs_spec (default u : dict) :
  wf_json (JDict u) = true ->
  exists merged,
    _merge_configs default (JDict u) = Ret merged /\
    (forall p x,
        find (JDict default) p = Some x -> mappings_before (JDict u) p ->
        (exists y, find (JDict merged) p = Some y) /\
        (find (JDict u) p = None -> find (JDict merged) p = Some x)) /\
    (forall p v,
        find (JDict u) p = Some v -> is_dict v = false ->
        find (JDict merged) p = Some v) /\
    (forall p d' u',
        find (JDict default) p = Some (JDict d') ->
        find (JDict u) p = Some (JDict u') ->
        exists m', _merge_configs d' (JDict u') = Ret m' /\
                   find (JDict merged) p = Some (JDict m')).
Proof.
  intros Hwf.
  destruct (merge_configs_total (JDict u) default eq_refl) as [merged Hm].
  exists merged. split; [exact Hm|]. repeat split.
  - eapply merge_keeps_default_path; eauto.
  - eapply merge_keeps_default_path; eauto.
  - intros p v. now apply merge_keeps_user_value with (default := default).
  - intros p d' u'. now apply merge_recurses.
Qed.

(** The local file [{"paths": {"save_folder": "/x"}}] of the specification. *)
Lemma merge_configs_spec_witness :
  wf_json (JDict [("paths", JDict [("save_folder", JStr "/x")])]) = true /\
  exists merged,
    _merge_configs (default_local_config "D")
      (JDict [("paths", JDict [("save_folder", JStr "/x")])])
    = Ret merged /\
    find (JDict merged) ["paths"; "save_folder"] = Some (JStr "/x") /\
    find (JDict merged) ["paths"; "poppler_path"]
    = Some (JStr "C:\Program Files\poppler\bin").
Proof.
  split; [reflexivity|].
  destruct (merge_configs_spec (default_local_config "D")
              [("paths", JDict [("save_folder", JStr "/x")])] eq_refl)
    as (merged & Hm & Hd & Hu & _).
  exists merged. split; [exact Hm|]. split.
  - apply Hu; reflexivity.
  - apply (Hd ["paths"; "poppler_path"]); try reflexivity.
    intros [|k [|k' q]] [|k2 r] v Hp Hq Hr Hf; try congruence;
      try discriminate.
    + inversion Hp. subst. inversion Hf. reflexivity.
    + inversion Hp. subst. discriminate.
Defined.

(** *** C1: what raises and what does not *)

Lemma load_shared_config_returns (w : world) :
  loadable (shared_file w) = true ->
  exists doc w',
    load_shared_config w = (Ret doc, w') /\ is_dict doc = true /\
    local_file w' = local_file w /\ home_desktop w' = home_desktop w /\
    (broken (shared_file w) = true ->
     doc = JDict default_shared_config /\
     exists e, w' = add_stdout w (SharedLoadError e)) /\
    (broken (shared_file w) = false -> w' = w).
Proof.
  unfold load_shared_config, try_exceptM, bindM, lift, ret, print.
  destruct (shared_file w) as [ | v | | e] eqn:Ef;
    cbn -[_merge_configs default_shared_config]; intros Hl.
  - do 2 eexists. repeat split; try reflexivity; discriminate.
  - destruct v; try discriminate.
    destruct (merge_configs_total (JDict d) default_shared_config eq_refl)
      as [m Hm].
    rewrite Hm. do 2 eexists. repeat split; try reflexivity; discriminate.
  - do 2 eexists. repeat split; try reflexivity; try discriminate.
    now exists JSONDecodeError.
  - destruct e; try discriminate. simpl.
    do 2 eexists. repeat split; try reflexivity; try discriminate.
    now exists FileNotFoundError.
Qed.

Lemma load_local_config_returns (w : world) :
  loadable (local_file w) = true ->
  exists doc w',
    load_local_config w = (Ret doc, w') /\ is_dict doc = true /\
    (broken (local_file w) = true ->
     doc = JDict (default_local_config (home_desktop w)) /\
     exists e, w' = add_stdout w (LocalLoadError e)) /\
    (broken (local_file w) = false -> w' = w).
Proof.
  unfold load_local_config, try_exceptM, bindM, lift, ret, print.
  destruct (local_file w) as [ | v | | e] eqn:Ef;
    cbn -[_merge_configs default_local_config]; intros Hl.
  - do 2 eexists. repeat split; try reflexivity; discriminate.
  - destruct v; try discriminate.
    destruct (merge_configs_total (JDict d)
                (default_local_config (home_desktop w)) eq_refl) as [m Hm].
    rewrite Hm. do 2 eexists. repeat split; try reflexivity; discriminate.
  - do 2 eexists. repeat split; try reflexivity; try discriminate.
    now exists JSONDecodeError.
  - destruct e; try discriminate. simpl.
    do 2 eexists. repeat split; try reflexivity; try discriminate.
    now exists FileNotFoundError.
Qed.

Lemma init_returns (w : world) :
  loadable (shared_file w) = true -> loadable (local_file w) = true ->
  exists self w1 w',
    __init__ w = (Ret self, w') /\
    load_shared_config w = (Ret (shared_config self), w1) /\
    load_local_config w1 = (Ret (local_config self), w') /\
    local_file w1 = local_file w /\ home_desktop w1 = home_desktop w.
Proof.
  intros Hs Hl.
  destruct (load_shared_config_returns w Hs)
    as (sdoc & w1 & Hload & _ & Hlf & Hhd & _).
  rewrite <- Hlf in Hl.
  destruct (load_local_config_returns w1 Hl) as (ldoc & w' & Hload' & _).
  exists (mk sdoc ldoc), w1, w'. unfold __init__, bindM, ret.
  rewrite Hload, Hload'. auto.
Qed.

Lemma set_local_raises (self : t) (key_path : string) (v : json) :
  settable (local_config self) (split_dot key_path) = false ->
  set_local self key_path v = Raise TypeError.
Proof.
  intros H. unfold set_local, _set_nested_value.
  rewrite set_walk_raises; auto. apply split_dot_nonempty.
Qed.

Lemma set_shared_returns (self : t) (key_path : string) (v : json) :
  settable (shared_config self) (split_dot key_path) = true ->
  returns (set_shared self key_path v).
Proof.
  intros Hs. unfold set_shared, _set_nested_value.
  destruct (set_walk_returns _ _ v Hs) as (doc & Hw & _).
  rewrite Hw. simpl. now eexists.
Qed.

Lemma set_shared_raises (self : t) (key_path : string) (v : json) :
  settable (shared_config self) (split_dot key_path) = false ->
  set_shared self key_path v = Raise TypeError.
Proof.
  intros H. unfold set_shared, _set_nested_value.
  rewrite set_walk_raises; auto. apply split_dot_nonempty.
Qed.

Lemma get_capture_region_lookup (self : t) :
  get_capture_region self =
  Ret (let remembered :=
         lookup self "user_preferences.last_used_region" JNull in
       let configured := lookup self "capture.default_region" JNull in
       if truthy remembered then remembered
       else if truthy configured then configured
       else rectangle 0 0 1920 1080).
Proof.
  unfold get_capture_region. rewrite !get_lookup. simpl.
  destruct (truthy (lookup self "user_preferences.last_used_region" JNull));
    auto.
  destruct (truthy (lookup self "capture.default_region" JNull)); auto.
Qed.

(** After a setter that assigns at [key_path] of the local document and
    saves. *)
Lemma set_and_save (self : t) (key_path : string) (v : json) (w : world) :
  settable (local_config self) (split_dot key_path) = true ->
  exists doc b w',
    (self' <- lift (set_local self key_path v) ;;
     save_local_config self' ;;; ret self') w
    = (Ret (mk (shared_config self) doc), w') /\
    find doc (split_dot key_path) = Some v /\
    save_local_config (mk (shared_config self) doc) w = (Ret b, w') /\
    (local_write_error w = None -> local_file w' = JsonText doc).
Proof.
  intros Hs.
  destruct (set_local_returns self key_path v Hs) as (doc & Hset & Hf & _).
  destruct (save_local_config_returns (mk (shared_config self) doc) w)
    as (b & w' & Hsave & Hok).
  exists doc, b, w'. unfold bindM, lift, ret. rewrite Hset, Hsave.
  repeat split; auto.
  intros He. destruct (Hok He) as [_ ->]. reflexivity.
Qed.

(** C1, as stated, fails: on the store built from no files, assigning below
    [last_used_region], which holds [None], raises [TypeError]. *)
Lemma set_local_below_scalar_raises :
  exists self,
    __init__ empty_world = (Ret self, empty_world) /\
    set_local self "user_preferences.last_used_region.x" (JNum 1)
    = Raise TypeError.
Proof. eexists. split; reflexivity. Qed.

(** C1, amended. [get], [get_capture_region], [get_recent_projects] and the
    two save operations never raise. A load, and the construction of the
    store, returns when each file is absent, holds a JSON object, holds
    malformed JSON or is gone when it is opened. [set_shared] and [set_local]
    return exactly when every component of the path before the last is absent
    or holds a mapping in the targeted document, and raise [TypeError]
    otherwise; [update_capture_region], [set_capture_region] and
    [set_save_folder] return when [user_preferences] is absent or a mapping
    in the local document. *)
Theorem handled_operations_return (self : t) (w : world) (key_path : string)
    (default value : json) (x y width height : Z) :
  returns (get self key_path default) /\
  returns (get_capture_region self) /\
  returns (get_recent_projects self) /\
  (exists b w', save_shared_config self w = (Ret b, w')) /\
  (exists b w', save_local_config self w = (Ret b, w')) /\
  (loadable (shared_file w) = true ->
   exists doc w', load_shared_config w = (Ret doc, w')) /\
  (loadable (local_file w) = true ->
   exists doc w', load_local_config w = (Ret doc, w')) /\
  (loadable (shared_file w) = true -> loadable (local_file w) = true ->
   exists self' w', __init__ w = (Ret self', w')) /\
  (if settable (shared_config self) (split_dot key_path)
   then returns (set_shared self key_path value)
   else set_shared self key_path value = Raise TypeError) /\
  (if settable (local_config self) (split_dot key_path)
   then returns (set_local self key_path value)
   else set_local self key_path value = Raise TypeError) /\
  (settable (local_config self) ["user_preferences"; "last_used_region"]
   = true ->
   (exists self' w',
       update_capture_region self x y width height w = (Ret self', w')) /\
   (exists self' w',
       set_capture_region self x y width height w = (Ret self', w')) /\
   (exists self' w', set_save_folder self value w = (Ret self', w'))).
Proof.
  repeat match goal with |- _ /\ _ => split end.
  - rewrite get_lookup. now eexists.
  - rewrite get_capture_region_lookup. now eexists.
  - unfold get_recent_projects. rewrite get_lookup. now eexists.
  - destruct (save_shared_config_returns self w) as (b & w' & H & _). eauto.
  - destruct (save_local_config_returns self w) as (b & w' & H & _). eauto.
  - intros H. destruct (load_shared_config_returns w H) as (d & w' & E & _).
    eauto.
  - intros H. destruct (load_local_config_returns w H) as (d & w' & E & _).
    eauto.
  - intros Hs Hl. destruct (init_returns w Hs Hl) as (s & w1 & w' & E & _).
    eauto.
  - destruct (settable (shared_config self) (split_dot key_path)) eqn:E.
    + now apply set_shared_returns.
    + now apply set_shared_raises.
  - destruct (settable (local_config self) (split_dot key_path)) eqn:E.
    + destruct (set_local_returns self key_path value E) as (d & H & _).
      rewrite H. now eexists.
    + now apply set_local_raises.
  - intros Hs. repeat split.
    + destruct (set_and_save self "user_preferences.last_used_region"
                  (JDict [("x", JNum x); ("y", JNum y);
                          ("width", JNum width); ("height", JNum height)])
                  w Hs) as (d & b & w' & H & _).
      unfold update_capture_region. eauto.
    + destruct (set_and_save self "user_preferences.last_used_region"
                  (JDict [("x", JNum x); ("y", JNum y);
                          ("width", JNum width); ("height", JNum height)])
                  w Hs) as (d & b & w' & H & _).
      unfold set_capture_region. eauto.
    + destruct (set_and_save self "user_preferences.last_save_folder"
                  value w Hs) as (d & b & w' & H & _).
      unfold set_save_folder. eauto.
Qed.

(** The store built from no files: construction, a lookup and an assignment
    on a fresh path return. *)
Lemma handled_operations_return_witness :
  loadable (shared_file empty_world) = true /\
  loadable (local_file empty_world) = true /\
  (exists self' w', __init__ empty_world = (Ret self', w')) /\
  returns (set_local (mk (JDict default_shared_config)
                        (JDict (default_local_config "/home/user/Desktop")))
             "a.b.c" (JNum 5)).
Proof.
  pose proof (handled_operations_return
                (mk (JDict default_shared_config)
                    (JDict (default_local_config "/home/user/Desktop")))
                empty_world "a.b.c" JNull (JNum 5) 0 0 0 0)
    as (_ & _ & _ & _ & _ & _ & _ & Hinit & _ & Hset & _).
  repeat split; try reflexivity.
  - apply Hinit; reflexivity.
  - exact Hset.
Defined.

(** *** C5: a configuration file that cannot be loaded *)

(** C5, as stated, fails: a shared file that exists but cannot be opened
    (permission denied) makes the construction raise. *)
Lemma unreadable_file_is_fatal :
  __init__ (set_shared_file empty_world (OpenFails PermissionError))
  = (Raise PermissionError,
     set_shared_file empty_world (OpenFails PermissionError)).
Proof. reflexivity. Qed.

(** C5, amended. When each configuration file is absent, holds a JSON
    object, holds malformed JSON or is gone when it is opened, the
    construction returns a store whose two documents are what the two loads
    return. A file of the last two kinds is logged and its document alone is
    the built-in default, so that [get] answers from the built-in default of
    that document: for a malformed shared file, at every path that the local
    document leaves undefined or null; for a malformed local file, at every
    path. *)
Theorem broken_file_falls_back (w : world) :
  loadable (shared_file w) = true -> loadable (local_file w) = true ->
  exists self w1 w',
    __init__ w = (Ret self, w') /\
    load_shared_config w = (Ret (shared_config self), w1) /\
    load_local_config w1 = (Ret (local_config self), w') /\
    (broken (shared_file w) = true ->
     shared_config self = JDict default_shared_config /\
     (exists e, In (SharedLoadError e) (stdout w')) /\
     forall key_path default,
       non_null (local_config self) (split_dot key_path) = None ->
       get self key_path default =
       Ret match non_null (JDict default_shared_config) (split_dot key_path)
           with
           | Some v => v
           | None => default
           end) /\
    (broken (local_file w) = true ->
     local_config self = JDict (default_local_config (home_desktop w)) /\
     (exists e, In (LocalLoadError e) (stdout w')) /\
     forall key_path default,
       get self key_path default =
       Ret match non_null (JDict (default_local_config (home_desktop w)))
                 (split_dot key_path) with
           | Some v => v
           | None =>
               match non_null (shared_config self) (split_dot key_path) with
               | Some v => v
               | None => default
               end
           end).
Proof.
  intros Hs Hl.
  destruct (load_shared_config_returns w Hs)
    as (sdoc & w1 & Hload & _ & Hlf & Hhd & Hsb & Hsok).
  rewrite <- Hlf in Hl.
  destruct (load_local_config_returns w1 Hl)
    as (ldoc & w' & Hload' & _ & Hlb & Hlok).
  exists (mk sdoc ldoc), w1, w'. unfold __init__, bindM, ret.
  rewrite Hload, Hload'. repeat split; auto; simpl.
  - now apply Hsb.
  - destruct (Hsb H) as (_ & e & Hw1). exists e.
    assert (Hin : In (SharedLoadError e) (stdout w1)).
    { rewrite Hw1. simpl. rewrite in_app_iff. simpl. auto. }
    destruct (broken (local_file w1)) eqn:Eb.
    + destruct (Hlb eq_refl) as (_ & e' & ->). simpl.
      rewrite in_app_iff. auto.
    + now rewrite (Hlok eq_refl).
  - intros key_path default Hn. rewrite get_lookup. unfold lookup. simpl.
    rewrite Hn. destruct (Hsb H) as (-> & _). reflexivity.
  - rewrite <- Hhd. rewrite Hlf in Hlb. now apply Hlb.
  - rewrite Hlf in Hlb. destruct (Hlb H) as (_ & e & ->). exists e.
    simpl. rewrite in_app_iff. simpl. auto.
  - intros key_path default. rewrite get_lookup. unfold lookup. simpl.
    rewrite Hlf in Hlb. destruct (Hlb H) as (-> & _). now rewrite Hhd.
Qed.

(** A shared file with malformed JSON and no local file: the store is built
    and [get("app.title")] is the built-in title. *)
Lemma broken_file_falls_back_witness :
  loadable (shared_file (set_shared_file empty_world BadText)) = true /\
  loadable (local_file (set_shared_file empty_world BadText)) = true /\
  exists self w',
    __init__ (set_shared_file empty_world BadText) = (Ret self, w') /\
    get self "app.title" JNull = Ret (JStr "Kindle2Markdown").
Proof.
  split; [reflexivity|]. split; [reflexivity|].
  destruct (broken_file_falls_back (set_shared_file empty_world BadText)
              eq_refl eq_refl)
    as (self & w1 & w' & Hinit & Hs & Hl & Hsb & _).
  exists self, w'. split; [exact Hinit|].
  destruct (Hsb eq_refl) as (_ & _ & Hget).
  injection Hs as _ <-. injection Hl as Hlocal _.
  rewrite Hget; [reflexivity|].
  now rewrite <- Hlocal.
Defined.

(** *** C6: assignment and reload *)

(** C6, as stated, fails: [set_local] does not write the file, and a store
    built afterwards from the same directory finds nothing at the path. *)
Lemma set_local_is_not_persisted :
  exists self self' fresh,
    __init__ empty_world = (Ret self, empty_world) /\
    set_local self "a.b.c" (JNum 5) = Ret self' /\
    get self' "a.b.c" JNull = Ret (JNum 5) /\
    __init__ empty_world = (Ret fresh, empty_world) /\
    get fresh "a.b.c" JNull = Ret JNull.
Proof. do 3 eexists. repeat split; reflexivity. Qed.

(** C6, amended. On a store whose local document has nothing or a mapping
    at [a] and at [a.b], [set_local("a.b.c", 5)] followed by [get("a.b.c")]
    returns 5; once [save_local_config()] has then written the local file,
    a fresh store built from the directory also yields 5 at that path. *)
Theorem set_save_reload (self : t) (w : world) :
  wf_json (local_config self) = true ->
  settable (local_config self) ["a"; "b"; "c"] = true ->
  local_write_error w = None ->
  loadable (shared_file w) = true ->
  exists self1 w1 fresh w2,
    set_local self "a.b.c" (JNum 5) = Ret self1 /\
    get self1 "a.b.c" JNull = Ret (JNum 5) /\
    save_local_config self1 w = (Ret true, w1) /\
    local_file w1 = JsonText (local_config self1) /\
    __init__ w1 = (Ret fresh, w2) /\
    get fresh "a.b.c" JNull = Ret (JNum 5).
Proof.
  intros Hwf Hs He Hsh.
  destruct (set_local_returns self "a.b.c" (JNum 5) Hs)
    as (doc & Hset & Hf & Hd & Hwf').
  specialize (Hwf' Hwf eq_refl).
  change (split_dot "a.b.c") with ["a"; "b"; "c"] in Hf.
  destruct (save_local_config_returns (mk (shared_config self) doc) w)
    as (b & w1 & Hsave & Hok).
  destruct (Hok He) as [-> ->]. simpl in Hsave.
  set (w1 := set_local_file w (JsonText doc)) in *.
  destruct doc as [ | | | | | d]; try discriminate.
  destruct (init_returns w1) as (fresh & w1' & w2 & Hinit & Hls & Hll & Hlf & _);
    [exact Hsh | reflexivity |].
  exists (mk (shared_config self) (JDict d)), w1, fresh, w2.
  repeat split; auto.
  - rewrite get_lookup. unfold lookup, non_null.
    change (split_dot "a.b.c") with ["a"; "b"; "c"]. simpl local_config.
    now rewrite Hf.
  - rewrite get_lookup. unfold lookup, non_null.
    change (split_dot "a.b.c") with ["a"; "b"; "c"].
    assert (Hfresh : find (local_config fresh) ["a"; "b"; "c"]
                     = Some (JNum 5)).
    { unfold load_local_config, try_exceptM, bindM, lift, ret in Hll.
      rewrite Hlf in Hll. cbn -[_merge_configs default_local_config] in Hll.
      destruct (_merge_configs (default_local_config (home_desktop w1'))
                  (JDict d)) as [m|e] eqn:Em.
      - inversion Hll.
        apply (merge_keeps_user_value _ _ _ _ _ Hwf' Em Hf eq_refl).
      - destruct (merge_configs_total (JDict d)
                    (default_local_config (home_desktop w1')) eq_refl)
          as [m Hm].
        congruence. }
    now rewrite Hfresh.
Qed.

(** From the store built from no files. *)
Lemma set_save_reload_witness :
  exists self1 w1 fresh w2,
    set_local (mk (JDict default_shared_config)
                 (JDict (default_local_config "/home/user/Desktop")))
      "a.b.c" (JNum 5) = Ret self1 /\
    save_local_config self1 empty_world = (Ret true, w1) /\
    __init__ w1 = (Ret fresh, w2) /\
    get fresh "a.b.c" JNull = Ret (JNum 5).
Proof.
  destruct (set_save_reload
              (mk (JDict default_shared_config)
                  (JDict (default_local_config "/home/user/Desktop")))
              empty_world eq_refl eq_refl eq_refl eq_refl)
    as (self1 & w1 & fresh & w2 & H1 & _ & H3 & _ & H5 & H6).
  exists self1, w1, fresh, w2. auto.
Defined.

(** *** C7: the save folder *)

(** C7, as stated, fails: [paths.save_folder] is looked up in the local
    document first. With a local file that sets it to ["/x"] and remembers a
    folder that is not on disk, and no shared file, the code returns ["/x"],
    where the specification's wording gives the desktop path. *)
Lemma save_folder_comes_from_local :
  exists self w,
    __init__ (set_local_file empty_world
                (JsonText (JDict
                   [("paths", JDict [("save_folder", JStr "/x")]);
                    ("user_preferences",
                     JDict [("last_save_folder", JStr "/gone")])])))
    = (Ret self, w) /\
    path_exists w (JStr "/gone") = Ret false /\
    get_save_folder self w = (Ret (JStr "/x"), w) /\
    worded_save_folder self w = JStr "/home/user/Desktop".
Proof. do 2 eexists. repeat split; reflexivity. Qed.

(** C7, amended. [get_save_folder()] returns the value that [get] finds at
    [user_preferences.last_save_folder] (local document, else shared) only
    when it is truthy and the path exists on disk; when it is not truthy or
    the path does not exist, it returns the value that [get] finds at
    [paths.save_folder] (local document first, else shared) when that is
    truthy, and the platform's desktop path otherwise. *)
Theorem get_save_folder_spec (self : t) (w : world) :
  let remembered := lookup self "user_preferences.last_save_folder" JNull in
  let configured := lookup self "paths.save_folder" JNull in
  let fallback :=
    if truthy configured then configured else JStr (home_desktop w) in
  (truthy remembered = true -> path_exists w remembered = Ret true ->
   get_save_folder self w = (Ret remembered, w)) /\
  (truthy remembered = false \/ path_exists w remembered = Ret false ->
   get_save_folder self w = (Ret fallback, w)).
Proof.
  intros remembered configured fallback.
  unfold get_save_folder, bindM, lift, os_path_exists, ret.
  rewrite !get_lookup. fold remembered.
  assert (Hfb : forall w0 : world,
             (let (o, w') := (Ret (lookup self "paths.save_folder" JNull), w0)
              in match o with
                 | Ret a =>
                     (if truthy a then fun w1 => (Ret a, w1)
                      else fun w1 => (Ret (JStr (home_desktop w1)), w1)) w'
                 | Raise e => (Raise e, w')
                 end)
             = (Ret (if truthy configured then configured
                     else JStr (home_desktop w0)), w0)).
  { intros w0. fold configured. now destruct (truthy configured). }
  split.
  - intros Ht He. now rewrite Ht, He.
  - intros [Ht | He].
    + rewrite Ht. apply Hfb.
    + destruct (truthy remembered); [rewrite He|]; apply Hfb.
Qed.

(** A remembered folder that is gone: the configured folder is returned. *)
Lemma get_save_folder_spec_witness :
  exists self,
    set_local (mk (JDict default_shared_config)
                 (JDict (default_local_config "/home/user/Desktop")))
      "user_preferences.last_save_folder" (JStr "/gone") = Ret self /\
    path_exists empty_world (JStr "/gone") = Ret false /\
    get_save_folder self empty_world
    = (Ret (JStr "/home/user/Desktop"), empty_world).
Proof.
  eexists. split; [reflexivity|]. split; [reflexivity|].
  refine (proj2 (get_save_folder_spec _ empty_world) _).
  right. reflexivity.
Defined.

(** *** C10: a remembered region that is falsy *)

(** C10, as stated, fails: [capture.default_region] is looked up in the
    local document first. With a local file that remembers the empty mapping
    and sets its own default region, that local region is returned, not the
    shared one. *)
Lemma region_fallback_comes_from_local :
  exists self w,
    __init__ (set_local_file empty_world
                (JsonText (JDict
                   [("user_preferences", JDict [("last_used_region", JDict [])]);
                    ("capture",
                     JDict [("default_region", rectangle 1 2 3 4)])])))
    = (Ret self, w) /\
    find (local_config self) ["user_preferences"; "last_used_region"]
    = Some (JDict []) /\
    get_capture_region self = Ret (rectangle 1 2 3 4) /\
    worded_region_fallback self = rectangle 0 0 1920 1080.
Proof. do 2 eexists. repeat split; reflexivity. Qed.

(** C10, amended. When the local document's
    [user_preferences.last_used_region] is present and non-null but falsy,
    [get_capture_region()] does not return it: it returns the value that
    [get] finds at [capture.default_region] (local document first, else
    shared) when that is truthy, and the hardcoded rectangle otherwise. *)
Theorem falsy_region_falls_through (self : t) (v : json) :
  find (local_config self) ["user_preferences"; "last_used_region"] = Some v ->
  is_None v = false -> truthy v = false ->
  let configured := lookup self "capture.default_region" JNull in
  let result :=
    if truthy configured then configured else rectangle 0 0 1920 1080 in
  get_capture_region self = Ret result /\ result <> v.
Proof.
  intros Hf Hn Ht configured result.
  assert (Hr : lookup self "user_preferences.last_used_region" JNull = v).
  { unfold lookup, non_null.
    change (split_dot "user_preferences.last_used_region")
      with ["user_preferences"; "last_used_region"].
    now rewrite Hf, Hn. }
  split.
  - rewrite get_capture_region_lookup. cbv zeta. rewrite Hr, Ht. reflexivity.
  - intros E. assert (Hres : truthy result = true).
    { unfold result. destruct (truthy configured) eqn:Ec; auto. }
    rewrite E in Hres. congruence.
Qed.

(** The empty mapping as remembered region, nothing else in the local
    file: the shared default region is returned. *)
Lemma falsy_region_falls_through_witness :
  find (JDict [("user_preferences", JDict [("last_used_region", JDict [])])])
    ["user_preferences"; "last_used_region"] = Some (JDict []) /\
  get_capture_region
    (mk (JDict default_shared_config)
        (JDict [("user_preferences", JDict [("last_used_region", JDict [])])]))
  = Ret (rectangle 0 0 1920 1080).
Proof.
  split; [reflexivity|].
  exact (proj1 (falsy_region_falls_through
                  (mk (JDict default_shared_config)
                      (JDict [("user_preferences",
                               JDict [("last_used_region", JDict [])])]))
                  (JDict []) eq_refl eq_refl eq_refl)).
Defined.

(** *** C9: the two setters of the capture region *)

(** C9, as stated, fails: the store built from a local file that holds
    [{"user_preferences": 5}] has a number at [user_preferences]; on it both
    methods raise [TypeError], store no rectangle and write nothing: the
    local file is as it was. *)
Lemma capture_region_setters_raise :
  exists self,
    __init__ scalar_preferences_world = (Ret self, scalar_preferences_world) /\
    find (local_config self) ["user_preferences"] = Some (JNum 5) /\
    update_capture_region self 10 20 300 400 scalar_preferences_world
    = (Raise TypeError, scalar_preferences_world) /\
    set_capture_region self 10 20 300 400 scalar_preferences_world
    = (Raise TypeError, scalar_preferences_world).
Proof. eexists. repeat split; reflexivity. Qed.

(** C9, amended. [update_capture_region] and [set_capture_region] agree on
    every store, world and arguments. When [user_preferences] is absent or
    a mapping in the local document, both return the store whose local
    document holds the mapping of [x], [y], [width] and [height] to the four
    arguments at [user_preferences.last_used_region], after
    [save_local_config] ran on that store: when the write succeeds the
    local file holds that document; when [open] fails the file is as it
    was, when the dump fails the file is cut off, and in both cases one
    message is printed and the call still returns. In every other store
    state both raise [TypeError] and leave the world as it was. *)
Theorem capture_region_setters_agree (self : t) (x y width height : Z)
    (w : world) :
  update_capture_region self x y width height w
  = set_capture_region self x y width height w /\
  if settable (local_config self) ["user_preferences"; "last_used_region"]
  then
    exists doc,
      find doc ["user_preferences"; "last_used_region"]
      = Some (JDict [("x", JNum x); ("y", JNum y);
                     ("width", JNum width); ("height", JNum height)]) /\
      set_capture_region self x y width height w
      = (Ret (mk (shared_config self) doc),
         snd (save_local_config (mk (shared_config self) doc) w)) /\
      save_local_config (mk (shared_config self) doc) w
      = match local_write_error w with
        | None => (Ret true, set_local_file w (JsonText doc))
        | Some (AtOpen e) => (Ret false, add_stdout w (LocalSaveError e))
        | Some (AtDump e) =>
            (Ret false,
             add_stdout (set_local_file w BadText) (LocalSaveError e))
        end
  else
    set_capture_region self x y width height w = (Raise TypeError, w).
Proof.
  split; [reflexivity|].
  destruct (settable (local_config self)
              ["user_preferences"; "last_used_region"]) eqn:Hs.
  - destruct (set_local_returns self "user_preferences.last_used_region"
                (JDict [("x", JNum x); ("y", JNum y);
                        ("width", JNum width); ("height", JNum height)]) Hs)
      as (doc & Hset & Hf & _).
    exists doc. split; [exact Hf|].
    unfold set_capture_region, bindM, lift, ret. rewrite Hset.
    unfold save_local_config, try_exceptM, bindM, write_local, print, ret.
    destruct (local_write_error w) as [[e|e]|]; split; reflexivity.
  - unfold set_capture_region, bindM, lift.
    now rewrite (set_local_raises self "user_preferences.last_used_region"
                   _ Hs).
Qed.

Lemma capture_region_setters_agree_witness :
  exists doc,
    find doc ["user_preferences"; "last_used_region"]
    = Some (JDict [("x", JNum 10); ("y", JNum 20);
                   ("width", JNum 300); ("height", JNum 400)]) /\
    update_capture_region
      (mk (JDict default_shared_config)
          (JDict (default_local_config "/home/user/Desktop")))
      10 20 300 400 empty_world
    = (Ret (mk (JDict default_shared_config) doc),
       set_local_file empty_world (JsonText doc)).
Proof.
  destruct (capture_region_setters_agree
              (mk (JDict default_shared_config)
                  (JDict (default_local_config "/home/user/Desktop")))
              10 20 300 400 empty_world)
    as (Heq & doc & Hf & Hrun & Hsave).
  exists doc. split; [exact Hf|].
  rewrite Heq, Hrun, Hsave. reflexivity.
Defined.

(** *** C4: recent projects *)

(** C4. From a store whose recent projects are a list [l] of records and
    whose local [user_preferences] is a mapping (or absent), any sequence
    of [add_recent_project] calls on records with a title returns, and the
    list of recent projects is then what the successive [push]es give: each
    call removes the entry of the new record's title, puts the record in
    front and keeps ten entries. Once a record was added, the list is stored
    in the local document, has at most ten entries, and has the record added
    last at index 0 and no other entry of that title. When no two entries of
    [l] had the same title (as in the built-in default, the empty list), no
    two entries of the list have. When every added record brings a title not
    yet there, the list is the added records, latest first, followed by the
    entries of [l], cut at ten. *)
Theorem recent_projects_invariant (self : t) (w : world)
    (l records : list json) :
  get_recent_projects self = Ret (JList l) ->
  settable (local_config self) recent_path = true ->
  Forall (fun p => is_dict p = true) l ->
  Forall (fun p => has_title p = true) records ->
  exists self' w' l',
    add_all self records w = (Ret self', w') /\
    get_recent_projects self' = Ret (JList l') /\
    l' = fold_left push records l /\
    (distinct_titles l = true -> distinct_titles l' = true) /\
    (records <> [] ->
     find (local_config self') recent_path = Some (JList l') /\
     (List.length l' <= 10)%nat /\
     exists tl, l' = last records JNull :: tl /\
                forallb (fun q => negb (same_title q (last records JNull))) tl
                = true) /\
    (records <> [] -> all_new l records = true ->
     l' = firstn 10 (rev records ++ l)).
Proof.
  intros Hg Hs Hl Hrs.
  destruct (add_all_fold records self w l Hg Hs Hl Hrs)
    as (self' & w' & Hrun & Hg' & Hf').
  exists self', w', (fold_left push records l).
  split; [exact Hrun|]. split; [exact Hg'|]. split; [reflexivity|].
  split; [apply fold_push_distinct|]. split.
  - intros Hne. split; [now apply Hf'|].
    destruct (fold_push_head records l Hne) as (tl & Htl & Hdist & Hlen).
    split; [exact Hlen|]. now exists tl.
  - intros Hne Hnew. now apply fold_push_all_new_from.
Qed.

(** Adding ["X"] twice, with a different payload the second time, to the
    store built from no files leaves the second record alone. *)
Lemma recent_projects_invariant_witness :
  exists self' w',
    add_all (mk (JDict default_shared_config)
               (JDict (default_local_config "/home/user/Desktop")))
      [JDict [("title", JStr "X"); ("pages", JNum 1)];
       JDict [("title", JStr "X"); ("pages", JNum 2)]] empty_world
    = (Ret self', w') /\
    get_recent_projects self'
    = Ret (JList [JDict [("title", JStr "X"); ("pages", JNum 2)]]).
Proof.
  destruct (recent_projects_invariant
              (mk (JDict default_shared_config)
                  (JDict (default_local_config "/home/user/Desktop")))
              empty_world []
              [JDict [("title", JStr "X"); ("pages", JNum 1)];
               JDict [("title", JStr "X"); ("pages", JNum 2)]])
    as (self' & w' & l' & Hrun & Hget & Hl' & _).
  - reflexivity.
  - reflexivity.
  - constructor.
  - repeat constructor.
  - exists self', w'. split; [exact Hrun|]. rewrite Hget, Hl'. reflexivity.
Defined.

(** Adding eleven projects of different titles to the store built from no
    files leaves the ten added last, the latest first. *)
Example eleven_projects :
  match
    add_all (mk (JDict default_shared_config)
               (JDict (default_local_config "/home/user/Desktop")))
      (map project ["p1"; "p2"; "p3"; "p4"; "p5"; "p6"; "p7"; "p8"; "p9";
                    "p10"; "p11"]) empty_world
  with
  | (Ret self', _) => get_recent_projects self'
  | (Raise e, _) => Raise e
  end
  = Ret (JList (map project ["p11"; "p10"; "p9"; "p8"; "p7"; "p6"; "p5";
                             "p4"; "p3"; "p2"])).
Proof. vm_compute. reflexivity. Qed.

(** *** C8: the ignore block *)

(** C8. When [.gitignore] can be opened, [create_gitignore()] returns and
    only appends to the file: the lines of the file are then the lines it
    had, possibly one empty line, and the lines of the fixed block that are
    not blank and were not among them, each once. A second run changes
    nothing. So a line of the fixed block that was absent occurs once, and
    one that was present occurs as often as before. *)
Theorem create_gitignore_idempotent (self : t) (w : world) :
  gitignore_error w = None ->
  exists w1,
    create_gitignore self w = (Ret tt, w1) /\
    (exists added, content w1 = content w ++ added) /\
    (exists mid,
        (mid = [] \/ mid = [[]]) /\
        lines w1 = lines w ++ mid ++ needed_entries (lines w)) /\
    (forall e, In e (needed_entries (lines w)) <->
               fixed_line e /\ ~ In e (lines w)) /\
    create_gitignore self w1 = (Ret tt, w1) /\
    (forall e, fixed_line e ->
               count e (lines w1) = Nat.max 1 (count e (lines w))).
Proof.
  intros He. rewrite (create_gitignore_run self w He).
  set (needed := needed_entries (lines w)).
  set (w1 := match needed with
             | [] => w
             | _ :: _ =>
                 set_gitignore w
                   (Some (content w ++ separator (lines w) ++ block needed))
             end).
  assert (He1 : gitignore_error w1 = None).
  { unfold w1. destruct needed; auto. }
  assert (Hc : exists added, content w1 = content w ++ added).
  { unfold w1. destruct needed.
    - exists []. now rewrite app_nil_r.
    - eexists. reflexivity. }
  assert (Hlines : exists mid,
             (mid = [] \/ mid = [[]]) /\ lines w1 = lines w ++ mid ++ needed).
  { unfold w1. destruct needed as [|e0 rest] eqn:En.
    - exists []. split; auto. now rewrite !app_nil_r.
    - unfold lines at 1. unfold content at 1. cbn [gitignore set_gitignore].
      rewrite <- En. apply lines_after_append.
      fold (lines w). fold needed. rewrite En. discriminate. }
  assert (Hagain : needed_entries (lines w1) = []).
  { destruct Hlines as (mid & _ & ->). apply filter_nil. intros e Hin.
    destruct (mem e (lines w)) eqn:Em.
    - rewrite mem_app, Em. reflexivity.
    - destruct (text_eqb (strip e) []) eqn:Es;
        [now rewrite andb_false_r|].
      assert (Hn : In e needed).
      { apply needed_entries_In. split; [split; auto|].
        - intros E. apply text_eqb_eq in E. congruence.
        - intros Hi. apply mem_In in Hi. congruence. }
      apply mem_In in Hn. rewrite !mem_app, Hn, !orb_true_r. reflexivity. }
  exists w1. split; [reflexivity|]. split; [exact Hc|].
  split; [exact Hlines|]. split; [intros e; apply needed_entries_In|].
  split.
  - rewrite (create_gitignore_run self w1 He1), Hagain. reflexivity.
  - intros e Hfix. destruct Hlines as (mid & Hmid & ->).
    destruct (fixed_line_facts e Hfix) as (_ & Hne & Hone).
    rewrite !count_app. unfold needed, needed_entries at 1.
    rewrite count_filter, Hone.
    assert (Hm : count e mid = 0%nat).
    { destruct Hmid as [-> | ->]; [reflexivity|]. unfold count. simpl.
      destruct (text_eqb e []) eqn:E; auto.
      apply text_eqb_eq in E. contradiction. }
    rewrite Hm. pose proof (count_mem e (lines w)) as Hcm.
    destruct Hfix as [_ Hs].
    destruct (text_eqb (strip e) []) eqn:Es;
      [apply text_eqb_eq in Es; contradiction|].
    destruct (mem e (lines w)); cbn [negb andb]; lia.
Qed.

(** A file that already ignores the local configuration file. *)
Lemma create_gitignore_idempotent_witness :
  exists w1,
    create_gitignore
      (mk (JDict default_shared_config)
          (JDict (default_local_config "/home/user/Desktop")))
      (set_gitignore empty_world (Some (of_string "config.local.json")))
    = (Ret tt, w1) /\
    create_gitignore
      (mk (JDict default_shared_config)
          (JDict (default_local_config "/home/user/Desktop"))) w1
    = (Ret tt, w1) /\
    count (of_string "config.local.json") (lines w1) = 1%nat /\
    count (of_string "*.md") (lines w1) = 1%nat.
Proof.
  destruct (create_gitignore_idempotent
              (mk (JDict default_shared_config)
                  (JDict (default_local_config "/home/user/Desktop")))
              (set_gitignore empty_world (Some (of_string "config.local.json")))
              eq_refl)
    as (w1 & Hrun & _ & _ & _ & Hagain & Hcount).
  exists w1. repeat split; auto.
  - rewrite Hcount; [reflexivity|]. split; [vm_compute; tauto|].
    vm_compute. discriminate.
  - rewrite Hcount; [reflexivity|]. split; [vm_compute; tauto|].
    vm_compute. discriminate.
Defined.

(** ** Further properties of the code *)

(** *** Assignment and lookup *)

Section AssignmentAndLookup.

Lemma set_walk_ret_settable (ks : list string) (doc v doc' : json) :
  set_walk doc ks v = Ret doc' -> settable doc ks = true.
Proof.
  intros H. destruct ks as [|k ks]; [discriminate|].
  destruct (settable doc (k :: ks)) eqn:E; auto.
  rewrite set_walk_raises in H; [discriminate | discriminate | exact E].
Qed.

Lemma set_walk_ret_find (ks : list string) (doc v doc' : json) :
  set_walk doc ks v = Ret doc' -> find doc' ks = Some v.
Proof.
  intros H. pose proof (set_walk_ret_settable _ _ _ _ H) as Hs.
  destruct (set_walk_returns ks doc v Hs) as (doc'' & Hw & Hf & _).
  congruence.
Qed.

Lemma find_after_set_local (self self' : t) (key_path : string) (v : json) :
  set_local self key_path v = Ret self' ->
  find (local_config self') (split_dot key_path) = Some v.
Proof.
  unfold set_local, _set_nested_value. intros H.
  destruct (set_walk (local_config self) (split_dot key_path) v) as [doc|e]
    eqn:Hw; [|discriminate].
  simpl in H. inversion H. subst self'. simpl.
  apply (set_walk_ret_find _ _ _ _ Hw).
Qed.

Lemma find_after_set_shared (self self' : t) (key_path : string) (v : json) :
  set_shared self key_path v = Ret self' ->
  find (shared_config self') (split_dot key_path) = Some v.
Proof.
  unfold set_shared, _set_nested_value. intros H.
  destruct (set_walk (shared_config self) (split_dot key_path) v) as [doc|e]
    eqn:Hw; [|discriminate].
  simpl in H. inversion H. subst self'. simpl.
  apply (set_walk_ret_find _ _ _ _ Hw).
Qed.

(** The loop of [_set_nested_value] at a mapping, one component down. *)
Lemma set_walk_dict_cons (d : dict) (k k2 : string) (rest : list string)
    (v : json) :
  set_walk (JDict d) (k :: k2 :: rest) v =
  let! child' :=
    set_walk (match dict_get d k with Some c => c | None => JDict [] end)
      (k2 :: rest) v in
  Ret (JDict (dict_set
                (match dict_get d k with
                 | Some _ => d
                 | None => dict_set d k (JDict [])
                 end) k child')).
Proof.
  change (set_walk (JDict d) (k :: k2 :: rest) v)
    with (let! present := contains (JDict d) k in
          let! current1 :=
            (if negb present then setitem (JDict d) k (JDict [])
             else Ret (JDict d)) in
          let! child := getitem current1 k in
          let! child' := set_walk child (k2 :: rest) v in
          Ret (with_member current1 k child')).
  cbn [contains bind]. unfold dict_has.
  destruct (dict_get d k) as [c|] eqn:Hk; cbn [negb setitem bind getitem].
  - rewrite Hk. reflexivity.
  - rewrite dict_get_set_same. reflexivity.
Qed.

(** An assignment changes nothing at a path that parts ways with the
    assigned one. *)
Lemma set_walk_frame (ks : list string) :
  forall doc v doc' q,
    set_walk doc ks v = Ret doc' -> diverges ks q = true ->
    find doc' q = find doc q.
Proof.
  induction ks as [|k rest IH]; intros doc v doc' q Hw Hd; [discriminate|].
  pose proof (settable_dict _ _ (set_walk_ret_settable _ _ _ _ Hw)) as Hdoc.
  destruct doc as [ | | | | | d]; try discriminate.
  destruct q as [|k' q']; [discriminate|].
  destruct rest as [|k2 r].
  - simpl in Hw. inversion Hw. subst doc'. simpl in Hd.
    destruct (String.eqb k k') eqn:E; [destruct q'; discriminate|].
    apply String.eqb_neq in E. simpl. now rewrite dict_get_set_other.
  - rewrite set_walk_dict_cons in Hw. cbv zeta in Hw.
    destruct (set_walk
                match dict_get d k with Some c => c | None => JDict [] end
                (k2 :: r) v) as [child'|e] eqn:Hc; [|discriminate].
    simpl in Hw. inversion Hw. subst doc'. clear Hw.
    cbn [diverges] in Hd. cbn [find].
    destruct (String.eqb k k') eqn:E.
    + apply String.eqb_eq in E. subst k'. rewrite dict_get_set_same.
      rewrite (IH _ _ _ _ Hc Hd).
      destruct (dict_get d k); auto.
      destruct q' as [|k'' q'']; [discriminate | reflexivity].
    + apply String.eqb_neq in E. rewrite dict_get_set_other by exact E.
      destruct (dict_get d k); auto. now rewrite dict_get_set_other.
Qed.

Lemma lookup_frame_local (self self' : t) (key_path other : string)
    (v default : json) :
  set_local self key_path v = Ret self' ->
  diverges (split_dot key_path) (split_dot other) = true ->
  lookup self' other default = lookup self other default.
Proof.
  unfold set_local, _set_nested_value. intros H Hd.
  destruct (set_walk (local_config self) (split_dot key_path) v) as [doc|e]
    eqn:Hw; [|discriminate].
  simpl in H. inversion H. subst self'.
  unfold lookup, non_null. simpl.
  now rewrite (set_walk_frame _ _ _ _ _ Hw Hd).
Qed.

Lemma lookup_frame_shared (self self' : t) (key_path other : string)
    (v default : json) :
  set_shared self key_path v = Ret self' ->
  diverges (split_dot key_path) (split_dot other) = true ->
  lookup self' other default = lookup self other default.
Proof.
  unfold set_shared, _set_nested_value. intros H Hd.
  destruct (set_walk (shared_config self) (split_dot key_path) v) as [doc|e]
    eqn:Hw; [|discriminate].
  simpl in H. inversion H. subst self'.
  unfold lookup, non_null. simpl.
  now rewrite (set_walk_frame _ _ _ _ _ Hw Hd).
Qed.

Lemma set_local_keeps_shared (self self' : t) (key_path : string) (v : json) :
  set_local self key_path v = Ret self' ->
  shared_config self' = shared_config self.
Proof.
  unfold set_local, _set_nested_value. intros H.
  destruct (set_walk (local_config self) (split_dot key_path) v);
    [|discriminate].
  simpl in H. inversion H. reflexivity.
Qed.

Lemma set_shared_keeps_local (self self' : t) (key_path : string) (v : json) :
  set_shared self key_path v = Ret self' ->
  local_config self' = local_config self.
Proof.
  unfold set_shared, _set_nested_value. intros H.
  destruct (set_walk (shared_config self) (split_dot key_path) v);
    [|discriminate].
  simpl in H. inversion H. reflexivity.
Qed.

End AssignmentAndLookup.



(** X2. On the store as the constructor returned it, whose two documents
    share no mapping: when [set_shared(path, value)] returns, the local
    document is as it was, and [get(path, default)] returns the local
    document's value at the path whenever that is present and non-null, and
    only otherwise [value] (the default when [value] is [None]): a local
    value shadows what is written to the shared document. *)
Theorem set_shared_is_shadowed (w0 w : world) (self self' : t)
    (key_path : string) (value default : json) :
  __init__ w0 = (Ret self, w) ->
  set_shared self key_path value = Ret self' ->
  local_config self' = local_config self /\
  get self' key_path default =
  Ret match non_null (local_config self) (split_dot key_path) with
      | Some x => x
      | None => if is_None value then default else value
      end.
Proof.
  intros _ H. pose proof (set_shared_keeps_local _ _ _ _ H) as Hl.
  split; [exact Hl|].
  rewrite get_lookup. unfold lookup. rewrite Hl.
  destruct (non_null (local_config self) (split_dot key_path)); auto.
  unfold non_null. rewrite (find_after_set_shared _ _ _ _ H).
  now destruct (is_None value).
Qed.

Lemma set_shared_is_shadowed_witness :
  __init__ empty_world
  = (Ret (mk (JDict default_shared_config)
            (JDict (default_local_config "/home/user/Desktop"))),
     empty_world) /\
  exists self',
    set_shared (mk (JDict default_shared_config)
                  (JDict (default_local_config "/home/user/Desktop")))
      "paths.save_folder" (JStr "/shared") = Ret self' /\
    get self' "paths.save_folder" JNull = Ret (JStr "/home/user/Desktop").
Proof.
  split; [reflexivity|]. eexists. split; [reflexivity|].
  exact (proj2 (set_shared_is_shadowed empty_world empty_world
                  (mk (JDict default_shared_config)
                      (JDict (default_local_config "/home/user/Desktop")))
                  _ "paths.save_folder" (JStr "/shared") JNull
                  eq_refl eq_refl)).
Defined.

(** X3. On the store as the constructor returned it, whose documents hold
    each mapping at one place only: when [set_local] or [set_shared]
    returns, [get] answers as before at every key path that parts ways with
    the assigned one (the two paths agree up to a component where they
    differ). *)
Theorem set_leaves_other_paths (w0 w : world) (self self' : t)
    (key_path other : string) (value default : json) :
  __init__ w0 = (Ret self, w) ->
  set_local self key_path value = Ret self' \/
  set_shared self key_path value = Ret self' ->
  diverges (split_dot key_path) (split_dot other) = true ->
  get self' other default = get self other default.
Proof.
  intros _ [H | H] Hd; rewrite !get_lookup; f_equal.
  - now apply (lookup_frame_local self self' key_path other value).
  - now apply (lookup_frame_shared self self' key_path other value).
Qed.

Lemma set_leaves_other_paths_witness :
  __init__ empty_world
  = (Ret (mk (JDict default_shared_config)
            (JDict (default_local_config "/home/user/Desktop"))),
     empty_world) /\
  exists self',
    set_local (mk (JDict default_shared_config)
                 (JDict (default_local_config "/home/user/Desktop")))
      "paths.save_folder" (JStr "/x") = Ret self' /\
    get self' "paths.poppler_path" JNull
    = Ret (JStr "C:\Program Files\poppler\bin").
Proof.
  split; [reflexivity|]. eexists. split; [reflexivity|].
  rewrite (set_leaves_other_paths empty_world empty_world
             (mk (JDict default_shared_config)
                 (JDict (default_local_config "/home/user/Desktop")))
             _ "paths.save_folder" "paths.poppler_path" (JStr "/x") JNull
             eq_refl (or_introl eq_refl) eq_refl).
  reflexivity.
Defined.

(** *** The domain accessors *)

Section DomainAccessors.

Lemma set_and_save_inv (self : t) (key_path : string) (v : json)
    (w : world) (self' : t) (w' : world) :
  (s <- lift (set_local self key_path v) ;;
   save_local_config s ;;; ret s) w = (Ret self', w') ->
  set_local self key_path v = Ret self' /\
  exists b, save_local_config self' w = (Ret b, w').
Proof.
  unfold bindM, lift, ret.
  destruct (set_local self key_path v) as [s|e]; [|discriminate].
  destruct (save_local_config_returns s w) as (b & w1 & Hsave & _).
  rewrite Hsave. intros [= <- <-]. eauto.
Qed.


Lemma capture_region_after_set (self self' : t) (x y width height : Z) :
  set_local self "user_preferences.last_used_region"
    (JDict [("x", JNum x); ("y", JNum y);
            ("width", JNum width); ("height", JNum height)]) = Ret self' ->
  get_capture_region self'
  = Ret (JDict [("x", JNum x); ("y", JNum y);
                ("width", JNum width); ("height", JNum height)]).
Proof.
  intros H. rewrite get_capture_region_lookup. cbv zeta.
  assert (Hl : lookup self' "user_preferences.last_used_region" JNull
               = JDict [("x", JNum x); ("y", JNum y);
                        ("width", JNum width); ("height", JNum height)]).
  { unfold lookup, non_null. now rewrite (find_after_set_local _ _ _ _ H). }
  now rewrite Hl.
Qed.

Lemma get_save_folder_lookup (self : t) (w : world) :
  get_save_folder self w =
  let remembered := lookup self "user_preferences.last_save_folder" JNull in
  if truthy remembered then
    match path_exists w remembered with
    | Ret true => (Ret remembered, w)
    | Ret false => (Ret (configured_folder self w), w)
    | Raise e => (Raise e, w)
    end
  else (Ret (configured_folder self w), w).
Proof.
  unfold get_save_folder, bindM, lift, os_path_exists, ret, configured_folder.
  rewrite !get_lookup. cbv zeta.
  destruct (truthy (lookup self "user_preferences.last_save_folder" JNull)).
  - destruct (path_exists w _) as [[|]|e]; auto.
    now destruct (truthy (lookup self "paths.save_folder" JNull)).
  - now destruct (truthy (lookup self "paths.save_folder" JNull)).
Qed.

Lemma add_recent_project_inv (self : t) (r : json) (w : world) (self' : t)
    (w' : world) :
  add_recent_project self r w = (Ret self', w') ->
  exists l,
    set_local self "user_preferences.recent_projects" (JList l) = Ret self'.
Proof.
  unfold add_recent_project. unfold bindM at 1. unfold lift at 1.
  destruct (get self "user_preferences.recent_projects" (JList []))
    as [recent|e]; [|discriminate].
  unfold bindM at 1. unfold lift at 1.
  destruct (iterate recent) as [items|e]; [|discriminate].
  unfold bindM at 1. unfold lift at 1.
  destruct (without_title items r) as [kept|e]; [|discriminate].
  intros H. apply set_and_save_inv in H. destruct H as [H _]. eauto.
Qed.

End DomainAccessors.

(** X4. Whatever the two documents hold, [get_capture_region()] returns,
    and what it returns is truthy: never [None], never an empty mapping. *)
Theorem get_capture_region_is_truthy (self : t) :
  exists region,
    get_capture_region self = Ret region /\ truthy region = true.
Proof.
  rewrite get_capture_region_lookup. cbv zeta. eexists. split; [reflexivity|].
  destruct (truthy (lookup self "user_preferences.last_used_region" JNull))
    eqn:E1; auto.
  destruct (truthy (lookup self "capture.default_region" JNull)) eqn:E2; auto.
Qed.

(** X5. When [set_capture_region(x, y, width, height)] (or
    [update_capture_region]) returns, [get_capture_region()] on the store
    returns the mapping of [x], [y], [width] and [height] to the four
    arguments, whether or not the file could be written. *)
Theorem capture_region_round_trip (self self' : t) (x y width height : Z)
    (w w' : world) :
  set_capture_region self x y width height w = (Ret self', w') \/
  update_capture_region self x y width height w = (Ret self', w') ->
  get_capture_region self'
  = Ret (JDict [("x", JNum x); ("y", JNum y);
                ("width", JNum width); ("height", JNum height)]).
Proof.
  intros [H | H]; apply set_and_save_inv in H; destruct H as [H _];
    now apply (capture_region_after_set self).
Qed.

Lemma capture_region_round_trip_witness :
  exists self' w',
    set_capture_region
      (mk (JDict default_shared_config)
          (JDict (default_local_config "/home/user/Desktop")))
      5 6 700 800 empty_world = (Ret self', w') /\
    get_capture_region self'
    = Ret (JDict [("x", JNum 5); ("y", JNum 6);
                  ("width", JNum 700); ("height", JNum 800)]).
Proof.
  do 2 eexists. split; [reflexivity|].
  refine (capture_region_round_trip
            (mk (JDict default_shared_config)
                (JDict (default_local_config "/home/user/Desktop")))
            _ 5 6 700 800 empty_world _ (or_introl _)).
  reflexivity.
Defined.



(** X7. When [set_save_folder(folder)] returns, with [folder] truthy, a
    call of [get_save_folder()] that follows returns [folder] if that path
    exists then (the save may just have created the local file); if it does
    not exist, it returns the fallback of the store as it then is: the
    truthy [paths.save_folder] that [get] finds, else the desktop path. *)
Theorem save_folder_round_trip (self self' : t) (folder : json)
    (w w' : world) :
  set_save_folder self folder w = (Ret self', w') ->
  truthy folder = true ->
  (path_exists w' folder = Ret true ->
   get_save_folder self' w' = (Ret folder, w')) /\
  (path_exists w' folder = Ret false ->
   get_save_folder self' w' = (Ret (configured_folder self' w'), w')).
Proof.
  intros H Ht. apply set_and_save_inv in H. destruct H as (Hset & _).
  assert (Hl : lookup self' "user_preferences.last_save_folder" JNull
               = folder).
  { unfold lookup, non_null. rewrite (find_after_set_local _ _ _ _ Hset).
    destruct folder; auto; discriminate. }
  rewrite get_save_folder_lookup. cbv zeta. rewrite Hl, Ht.
  split; intros ->; reflexivity.
Qed.

Lemma save_folder_round_trip_witness :
  exists self' w',
    set_save_folder
      (mk (JDict default_shared_config)
          (JDict (default_local_config "/home/user/Desktop")))
      (JStr "/gone") empty_world = (Ret self', w') /\
    path_exists w' (JStr "/gone") = Ret false /\
    get_save_folder self' w' = (Ret (JStr "/home/user/Desktop"), w').
Proof.
  do 2 eexists. split; [reflexivity|]. split; [reflexivity|].
  refine (proj2 (save_folder_round_trip
                   (mk (JDict default_shared_config)
                       (JDict (default_local_config "/home/user/Desktop")))
                   _ (JStr "/gone") empty_world _ _ _) _); reflexivity.
Defined.

(** X8. A record that is not a mapping is accepted by
    [add_recent_project] when the list of recent projects is empty, and
    stored; from then on every call of [add_recent_project] on that store
    raises [AttributeError] and changes nothing. *)
Theorem non_mapping_record_poisons (self : t) (w : world) (record : json) :
  get_recent_projects self = Ret (JList []) ->
  settable (local_config self) recent_path = true ->
  is_dict record = false ->
  exists self' w',
    add_recent_project self record w = (Ret self', w') /\
    get_recent_projects self' = Ret (JList [record]) /\
    forall next w2,
      add_recent_project self' next w2 = (Raise AttributeError, w2).
Proof.
  intros Hg Hs Hr.
  destruct (set_local_returns self "user_preferences.recent_projects"
              (JList [record]) Hs) as (doc & Hset & Hf & _).
  destruct (save_local_config_returns (mk (shared_config self) doc) w)
    as (b & w' & Hsave & _).
  exists (mk (shared_config self) doc), w'.
  change (split_dot "user_preferences.recent_projects") with recent_path in Hf.
  destruct (stored_recent_projects (mk (shared_config self) doc) [record] Hf)
    as [Hg' _].
  split; [|split; [exact Hg'|]].
  - unfold add_recent_project, bindM, lift, ret.
    unfold get_recent_projects in Hg. rewrite Hg. simpl.
    rewrite Hset, Hsave. reflexivity.
  - intros next w2. unfold add_recent_project, bindM, lift.
    unfold get_recent_projects in Hg'. rewrite Hg'. simpl.
    destruct record; try discriminate; reflexivity.
Qed.

Lemma non_mapping_record_poisons_witness :
  exists self' w',
    add_recent_project
      (mk (JDict default_shared_config)
          (JDict (default_local_config "/home/user/Desktop")))
      (JStr "book") empty_world = (Ret self', w') /\
    add_recent_project self' (project "next") w'
    = (Raise AttributeError, w').
Proof.
  destruct (non_mapping_record_poisons
              (mk (JDict default_shared_config)
                  (JDict (default_local_config "/home/user/Desktop")))
              empty_world (JStr "book") eq_refl eq_refl eq_refl)
    as (self' & w' & Hadd & _ & Hnext).
  exists self', w'. split; [exact Hadd | apply Hnext].
Defined.

(** X9. On the store as the constructor returned it, whose documents hold
    each mapping at one place only: when [set_capture_region],
    [update_capture_region], [set_save_folder] or [add_recent_project]
    returns, the shared document is as it was and [get] answers as before
    at every key path that parts ways with the one the method writes
    ([user_preferences.last_used_region],
    [user_preferences.last_save_folder],
    [user_preferences.recent_projects]). *)
Theorem domain_setters_write_one_path (w0 : world) (self self' : t)
    (w w' : world) (x y width height : Z) (folder record : json)
    (other : string) (default : json) :
  __init__ w0 = (Ret self, w) ->
  (set_capture_region self x y width height w = (Ret self', w') \/
   update_capture_region self x y width height w = (Ret self', w')) /\
  diverges ["user_preferences"; "last_used_region"] (split_dot other) = true
  \/
  set_save_folder self folder w = (Ret self', w') /\
  diverges ["user_preferences"; "last_save_folder"] (split_dot other) = true
  \/
  add_recent_project self record w = (Ret self', w') /\
  diverges ["user_preferences"; "recent_projects"] (split_dot other) = true ->
  shared_config self' = shared_config self /\
  get self' other default = get self other default.
Proof.
  intros _.
  assert (Hgen : forall key_path v,
             set_local self key_path v = Ret self' ->
             diverges (split_dot key_path) (split_dot other) = true ->
             shared_config self' = shared_config self /\
             get self' other default = get self other default).
  { intros key_path v Hset Hd. split.
    - apply (set_local_keeps_shared _ _ _ _ Hset).
    - rewrite !get_lookup. f_equal.
      now apply (lookup_frame_local self self' key_path other v). }
  intros [[[H | H] Hd] | [[H Hd] | [H Hd]]].
  - apply set_and_save_inv in H. destruct H as [H _].
    now apply (Hgen _ _ H).
  - apply set_and_save_inv in H. destruct H as [H _].
    now apply (Hgen _ _ H).
  - apply set_and_save_inv in H. destruct H as [H _].
    now apply (Hgen _ _ H).
  - apply add_recent_project_inv in H. destruct H as [l H].
    now apply (Hgen _ _ H).
Qed.

Lemma domain_setters_write_one_path_witness :
  __init__ empty_world
  = (Ret (mk (JDict default_shared_config)
            (JDict (default_local_config "/home/user/Desktop"))),
     empty_world) /\
  exists self' w',
    set_save_folder
      (mk (JDict default_shared_config)
          (JDict (default_local_config "/home/user/Desktop")))
      (JStr "/books") empty_world = (Ret self', w') /\
    get self' "user_preferences.recent_projects" JNull = Ret (JList []).
Proof.
  split; [reflexivity|]. do 2 eexists. split; [reflexivity|].
  refine (eq_trans
            (proj2 (domain_setters_write_one_path
                      empty_world
                      (mk (JDict default_shared_config)
                          (JDict (default_local_config "/home/user/Desktop")))
                      _ empty_world _ 0 0 0 0 (JStr "/books")
                      JNull "user_preferences.recent_projects" JNull
                      eq_refl (or_intror (or_introl (conj _ _))))) _);
    reflexivity.
Defined.

(** *** Merging again *)

Section MergeAgain.

Lemma existsb_eqb_In (k : string) (l : list string) :
  existsb (String.eqb k) l = true <-> In k l.
Proof.
  rewrite existsb_exists. split.
  - intros (x & Hx & E). apply String.eqb_eq in E. now subst.
  - intros H. exists k. split; auto. apply String.eqb_refl.
Qed.

Lemma nodup_keys_NoDup (l : list string) : nodup_keys l = true <-> NoDup l.
Proof.
  induction l as [|k l IH]; simpl.
  - split; auto. constructor.
  - rewrite andb_true_iff, negb_true_iff, IH. split.
    + intros [H1 H2]. constructor; auto. intros Hin.
      apply existsb_eqb_In in Hin. congruence.
    + intros H. inversion H. subst. split; auto.
      destruct (existsb (String.eqb k) l) eqn:E; auto.
      apply existsb_eqb_In in E. contradiction.
Qed.

Lemma dict_get_In_keys (d : dict) (k : string) (v : json) :
  dict_get d k = Some v -> In k (keys d).
Proof.
  induction d as [|[k0 v0] rest IH]; simpl; [discriminate|].
  destruct (String.eqb k0 k) eqn:E.
  - apply String.eqb_eq in E. auto.
  - auto.
Qed.

Lemma dict_get_In (d : dict) (k : string) (v : json) :
  dict_get d k = Some v -> In (k, v) d.
Proof.
  induction d as [|[k0 v0] rest IH]; simpl; [discriminate|].
  destruct (String.eqb k0 k) eqn:E.
  - apply String.eqb_eq in E. intros [= ->]. subst. auto.
  - auto.
Qed.

(** Two mappings with the same keys in the same order and the same value
    under each key are the same. *)
Lemma dict_ext (a : dict) :
  forall b,
    keys a = keys b -> nodup_keys (keys a) = true ->
    (forall k, dict_get a k = dict_get b k) -> a = b.
Proof.
  induction a as [|[k v] a IH]; intros [|[k' v'] b] Hk Hn Hg;
    try discriminate; auto.
  simpl in Hk. inversion Hk as [[Hkk Hrest]]. subst k'.
  simpl in Hn. apply andb_true_iff in Hn. destruct Hn as [Hfresh Hn].
  apply negb_true_iff in Hfresh.
  pose proof (Hg k) as Hv. simpl in Hv. rewrite String.eqb_refl in Hv.
  inversion Hv. subst v'. f_equal. apply IH; auto.
  intros k'. destruct (String.eqb k k') eqn:E.
  - apply String.eqb_eq in E. subst k'.
    rewrite (dict_get_absent a k Hfresh).
    rewrite Hrest in Hfresh. now rewrite (dict_get_absent b k Hfresh).
  - specialize (Hg k'). simpl in Hg. now rewrite E in Hg.
Qed.

Lemma merge_items_step (result rest : dict) (k0 : string) (v0 : json)
    (merged : dict) :
  merge_items _merge_configs result ((k0, v0) :: rest) = Ret merged ->
  exists x,
    merged_value (dict_get result k0) v0 = Some x /\
    merge_items _merge_configs (dict_set result k0 x) rest = Ret merged.
Proof.
  intros Hm. simpl in Hm. unfold merged_value.
  destruct (dict_get result k0) as [[ | | | | | sub]|]; eauto.
  destruct v0; eauto.
  destruct (_merge_configs sub (JDict d)) as [m|e]; simpl in Hm;
    [eauto | discriminate].
Qed.

(** The keys of a merged document: the keys of the defaults in their order,
    then the new keys of the user document in their order. *)
Lemma keys_merge_items (items : dict) :
  forall result merged,
    merge_items _merge_configs result items = Ret merged ->
    keys merged = add_keys (keys result) (keys items).
Proof.
  induction items as [|[k0 v0] rest IH]; intros result merged Hm.
  - change (Ret result = Ret merged) in Hm. now inversion Hm.
  - apply merge_items_step in Hm. destruct Hm as (x & _ & Hm).
    rewrite (IH _ _ Hm), keys_dict_set. reflexivity.
Qed.

Lemma add_keys_app (ks : list string) :
  forall acc, exists extra, add_keys acc ks = acc ++ extra.
Proof.
  induction ks as [|k ks IH]; intros acc; simpl.
  - exists []. now rewrite app_nil_r.
  - destruct (existsb (String.eqb k) acc); [apply IH|].
    destruct (IH (acc ++ [k])) as [extra ->].
    exists (k :: extra). now rewrite <- app_assoc.
Qed.

Lemma add_keys_present (l : list string) :
  forall acc rest,
    (forall k, In k l -> In k acc) ->
    add_keys acc (l ++ rest) = add_keys acc rest.
Proof.
  induction l as [|k l IH]; intros acc rest H; simpl; auto.
  assert (Hk : existsb (String.eqb k) acc = true).
  { apply existsb_eqb_In. apply H. now left. }
  rewrite Hk. apply IH. intros k' Hk'. apply H. now right.
Qed.

Lemma add_keys_fresh (extra : list string) :
  forall acc, NoDup (acc ++ extra) -> add_keys acc extra = acc ++ extra.
Proof.
  induction extra as [|k extra IH]; intros acc H; simpl.
  - now rewrite app_nil_r.
  - assert (Hk : existsb (String.eqb k) acc = false).
    { destruct (existsb (String.eqb k) acc) eqn:E; auto.
      apply existsb_eqb_In in E. apply NoDup_remove_2 in H.
      destruct H. apply in_or_app. now left. }
    rewrite Hk, IH; rewrite <- app_assoc; auto.
Qed.

Lemma add_keys_again (acc ks : list string) :
  NoDup (add_keys acc ks) ->
  add_keys acc (add_keys acc ks) = add_keys acc ks.
Proof.
  destruct (add_keys_app ks acc) as [extra ->]. intros H.
  rewrite add_keys_present by auto. now apply add_keys_fresh.
Qed.

Lemma wf_dict_values (d : dict) (k : string) (v : json) :
  wf_json (JDict d) = true -> In (k, v) d -> wf_json v = true.
Proof.
  simpl. rewrite wf_values. intros H Hin.
  apply andb_true_iff in H. destruct H as [_ H].
  rewrite forallb_forall in H. apply (H (k, v) Hin).
Qed.

(** A merge of well-formed documents is well-formed. *)
Lemma wf_merge (u : json) :
  forall d m,
    wf_json (JDict d) = true -> wf_json u = true ->
    _merge_configs d u = Ret m -> wf_json (JDict m) = true.
Proof.
  induction u as [ | | | | | items IHitems] using json_ind;
    intros d m Hd Hu Hm; try discriminate.
  simpl in Hm.
  assert (Hvals : forall k v, In (k, v) items -> wf_json v = true).
  { intros k v. apply (wf_dict_values items k v Hu). }
  clear Hu. revert d Hd Hm.
  induction items as [|[k0 v0] rest IH]; intros result Hres Hm.
  - change (Ret result = Ret m) in Hm. inversion Hm. now subst.
  - inversion IHitems as [|? ? Hv0 Hrest]. subst.
    apply merge_items_step in Hm. destruct Hm as (x & Hx & Hm).
    apply (IH Hrest) with (d := dict_set result k0 x); auto.
    + intros k v Hin. apply (Hvals k v). now right.
    + apply wf_dict_set; auto. unfold merged_value in Hx.
      assert (Hv0wf : wf_json v0 = true) by (apply (Hvals k0); now left).
      destruct (dict_get result k0) as [[ | | | | | sub]|] eqn:Hk;
        try (inversion Hx; subst; exact Hv0wf).
      destruct v0 as [ | | | | | uu];
        try (inversion Hx; subst; exact Hv0wf).
      destruct (_merge_configs sub (JDict uu)) as [mm|e] eqn:Em;
        [|discriminate].
      inversion Hx. subst x. cbn [snd] in Hv0.
      apply (Hv0 sub mm); auto. apply (wf_dict_get _ _ _ Hres Hk).
Qed.

(** Merging a document into itself changes nothing. *)
Lemma merge_self (x : json) :
  forall d, x = JDict d -> wf_json x = true -> _merge_configs d x = Ret d.
Proof.
  induction x as [ | | | | | items IH] using json_ind; intros d Hx Hwf;
    try discriminate.
  inversion Hx. subst d. clear Hx.
  destruct (merge_configs_total (JDict items) items eq_refl) as [m Hm].
  rewrite Hm. f_equal.
  assert (Hkeys : keys m = keys items).
  { simpl in Hm. rewrite (keys_merge_items _ _ _ Hm).
    rewrite <- (app_nil_r (keys items)) at 2.
    now rewrite add_keys_present. }
  apply dict_ext.
  - exact Hkeys.
  - rewrite Hkeys. now apply wf_dict_nodup.
  - intros k. rewrite (merged_at_key items items m k Hwf Hm).
    destruct (dict_get items k) as [v|] eqn:Hk; auto.
    unfold merged_value. destruct v as [ | | | | | sub]; auto.
    rewrite Forall_forall in IH.
    pose proof (IH (k, JDict sub) (dict_get_In _ _ _ Hk)) as IHv.
    cbn [snd] in IHv. rewrite (IHv sub eq_refl); auto.
    apply (wf_dict_get _ _ _ Hwf Hk).
Qed.

Lemma merged_value_self (v : json) :
  wf_json v = true -> merged_value (Some v) v = Some v.
Proof.
  intros Hwf. unfold merged_value. destruct v as [ | | | | | sub]; auto.
  now rewrite (merge_self (JDict sub) sub eq_refl Hwf).
Qed.

Lemma merged_value_some (dv : option json) (uv : json) :
  exists x, merged_value dv uv = Some x.
Proof.
  unfold merged_value. destruct dv as [[ | | | | | sub]|]; eauto.
  destruct uv as [ | | | | | uu]; eauto.
  destruct (merge_configs_total (JDict uu) sub eq_refl) as [m Hm].
  rewrite Hm. eauto.
Qed.

Lemma merged_value_again (dv : option json) (uv mv : json) :
  (forall sub mm,
      dv = Some (JDict sub) -> _merge_configs sub uv = Ret mm ->
      _merge_configs sub (JDict mm) = Ret mm) ->
  merged_value dv uv = Some mv -> merged_value dv mv = Some mv.
Proof.
  intros IH H. unfold merged_value in H.
  destruct dv as [[ | | | | | sub]|]; try (inversion H; reflexivity).
  destruct uv as [ | | | | | uu]; try (inversion H; reflexivity).
  destruct (_merge_configs sub (JDict uu)) as [mm|e] eqn:Em; [|discriminate].
  inversion H. subst mv. unfold merged_value.
  now rewrite (IH sub mm eq_refl Em).
Qed.

(** Merging the defaults into a document that a merge with these defaults
    produced changes nothing. *)
Lemma merge_again (u : json) :
  forall d m,
    wf_json (JDict d) = true -> wf_json u = true ->
    _merge_configs d u = Ret m -> _merge_configs d (JDict m) = Ret m.
Proof.
  induction u as [ | | | | | items IH] using json_ind; intros d m Hd Hu Hm;
    try discriminate.
  pose proof (wf_merge (JDict items) d m Hd Hu Hm) as Hwm.
  destruct (merge_configs_total (JDict m) d eq_refl) as [m' Hm'].
  rewrite Hm'. f_equal.
  assert (Hkm : keys m = add_keys (keys d) (keys items)).
  { simpl in Hm. apply (keys_merge_items _ _ _ Hm). }
  assert (Hkeys : keys m' = keys m).
  { simpl in Hm'. rewrite (keys_merge_items _ _ _ Hm'), Hkm.
    apply add_keys_again. rewrite <- Hkm.
    apply nodup_keys_NoDup. now apply wf_dict_nodup. }
  apply dict_ext.
  - exact Hkeys.
  - rewrite Hkeys. now apply wf_dict_nodup.
  - intros k. rewrite (merged_at_key d m m' k Hwm Hm').
    rewrite (merged_at_key d items m k Hu Hm).
    destruct (dict_get items k) as [uv|] eqn:Huk.
    + destruct (merged_value_some (dict_get d k) uv) as [mv Hmv].
      rewrite Hmv. apply (merged_value_again _ uv); auto.
      intros sub mm Hdk Em. rewrite Forall_forall in IH.
      apply (IH (k, uv) (dict_get_In _ _ _ Huk) sub mm); auto.
      * apply (wf_dict_get _ _ _ Hd Hdk).
      * apply (wf_dict_get _ _ _ Hu Huk).
    + destruct (dict_get d k) as [dv|] eqn:Hdk; auto.
      apply merged_value_self. apply (wf_dict_get _ _ _ Hd Hdk).
Qed.

(** A value of the user document is the merged value at its path unless
    both it and the default at that path are mappings. *)
Lemma merge_keeps_user_value_or_replaces (p : list string) :
  forall default u merged v,
    wf_json (JDict u) = true ->
    _merge_configs default (JDict u) = Ret merged ->
    find (JDict u) p = Some v ->
    match find (JDict default) p with
    | Some (JDict _) => is_dict v = false
    | _ => True
    end ->
    find (JDict merged) p = Some v.
Proof.
  induction p as [|k ps IH]; intros default u merged v Hwf Hm Hf Hv.
  - simpl in *. inversion Hf. subst v. discriminate.
  - apply find_cons_dict in Hf. destruct Hf as (d & uv & [= <-] & Hk & Hf).
    cbn [find] in Hv |- *. rewrite (merged_at_key _ _ _ k Hwf Hm), Hk.
    unfold merged_value.
    destruct (dict_get default k) as [[ | | | | | sub]|]; try exact Hf.
    destruct uv as [ | | | | | uu]; try exact Hf.
    destruct (_merge_configs sub (JDict uu)) as [m|e] eqn:Em.
    + apply (IH sub uu m v); auto. apply (wf_dict_get _ _ _ Hwf Hk).
    + destruct (merge_configs_total (JDict uu) sub eq_refl) as [m Hm'].
      congruence.
Qed.

End MergeAgain.

(** X10. On well-formed documents, merging the defaults into a document
    that a merge with the same defaults produced returns that document
    unchanged: [_merge_configs(d, _merge_configs(d, u))] is
    [_merge_configs(d, u)], keys in the same order. *)
Theorem merge_is_idempotent (default u merged : dict) :
  wf_json (JDict default) = true -> wf_json (JDict u) = true ->
  _merge_configs default (JDict u) = Ret merged ->
  _merge_configs default (JDict merged) = Ret merged.
Proof. intros Hd Hu Hm. now apply (merge_again (JDict u)). Qed.

Lemma merge_is_idempotent_witness :
  exists merged,
    _merge_configs (default_local_config "D")
      (JDict [("extra", JNum 1);
              ("paths", JDict [("save_folder", JStr "/x")])]) = Ret merged /\
    _merge_configs (default_local_config "D") (JDict merged) = Ret merged.
Proof.
  eexists. split; [reflexivity|].
  refine (merge_is_idempotent (default_local_config "D")
            [("extra", JNum 1);
             ("paths", JDict [("save_folder", JStr "/x")])] _ _ _ _);
    reflexivity.
Defined.

(** X11. The keys of a merged document are the keys of the defaults, in the
    defaults' order, followed by the keys that only the user document has,
    in the user document's order; no key of either document is dropped. *)
Theorem merge_key_order (default u merged : dict) :
  _merge_configs default (JDict u) = Ret merged ->
  keys merged = add_keys (keys default) (keys u) /\
  (exists extra, keys merged = keys default ++ extra) /\
  (forall k, In k (keys default) \/ In k (keys u) -> In k (keys merged)).
Proof.
  intros Hm. simpl in Hm.
  pose proof (keys_merge_items _ _ _ Hm) as Hk.
  split; [exact Hk|]. split.
  - rewrite Hk. apply add_keys_app.
  - rewrite Hk. clear Hk Hm. generalize (keys default) as acc.
    induction (keys u) as [|k0 ks IH]; intros acc k [H | H]; simpl; auto.
    + contradiction.
    + apply IH. left.
      destruct (existsb (String.eqb k0) acc); auto.
      apply in_or_app. now left.
    + destruct H as [-> | H].
      * apply IH. left.
        destruct (existsb (String.eqb k) acc) eqn:E.
        -- now apply existsb_eqb_In.
        -- apply in_or_app. right. now left.
      * apply IH. now right.
Qed.

Lemma merge_key_order_witness :
  exists merged,
    _merge_configs (default_local_config "D")
      (JDict [("extra", JNum 1);
              ("paths", JDict [("save_folder", JStr "/x")])]) = Ret merged /\
    keys merged = ["paths"; "user_preferences"; "extra"].
Proof.
  eexists. split; [reflexivity|].
  refine (eq_trans
            (proj1 (merge_key_order (default_local_config "D")
                      [("extra", JNum 1);
                       ("paths", JDict [("save_folder", JStr "/x")])] _ _))
            _); reflexivity.
Defined.

(** *** Loading, saving and loading again *)

Section Sessions.

Lemma printed_nothing (w : world) : printed w w [].
Proof. unfold printed. rewrite app_nil_r. now destruct w. Qed.

Lemma printed_one (w : world) (m : message) : printed w (add_stdout w m) [m].
Proof. reflexivity. Qed.

Lemma printed_trans (w w1 w2 : world) (m1 m2 : list message) :
  printed w w1 m1 -> printed w1 w2 m2 -> printed w w2 (m1 ++ m2).
Proof.
  unfold printed. intros -> ->. simpl. now rewrite app_assoc.
Qed.

Lemma load_shared_config_prints (w : world) (o : outcome json) (w' : world) :
  load_shared_config w = (o, w') ->
  exists msgs, printed w w' msgs /\ (List.length msgs <= 1)%nat.
Proof.
  unfold load_shared_config, try_exceptM, bindM, lift, ret, print.
  destruct (shared_file w) as [ | v | | e];
    cbn -[_merge_configs default_shared_config in_exns].
  - intros [= <- <-]. exists []. split; [apply printed_nothing | simpl; lia].
  - destruct (_merge_configs default_shared_config v) as [m|e];
      cbn -[in_exns].
    + intros [= <- <-]. exists [].
      split; [apply printed_nothing | simpl; lia].
    + destruct (in_exns [JSONDecodeError; FileNotFoundError] e); cbn;
        intros [= <- <-].
      * eexists. split; [apply printed_one | simpl; lia].
      * exists []. split; [apply printed_nothing | simpl; lia].
  - intros [= <- <-]. eexists. split; [apply printed_one | simpl; lia].
  - destruct (in_exns [JSONDecodeError; FileNotFoundError] e);
      intros [= <- <-].
    + eexists. split; [apply printed_one | simpl; lia].
    + exists []. split; [apply printed_nothing | simpl; lia].
Qed.

Lemma load_local_config_prints (w : world) (o : outcome json) (w' : world) :
  load_local_config w = (o, w') ->
  exists msgs, printed w w' msgs /\ (List.length msgs <= 1)%nat.
Proof.
  unfold load_local_config, try_exceptM, bindM, lift, ret, print.
  destruct (local_file w) as [ | v | | e];
    cbn -[_merge_configs default_local_config in_exns].
  - intros [= <- <-]. exists []. split; [apply printed_nothing | simpl; lia].
  - destruct (_merge_configs (default_local_config (home_desktop w)) v)
      as [m|e]; cbn -[in_exns].
    + intros [= <- <-]. exists [].
      split; [apply printed_nothing | simpl; lia].
    + destruct (in_exns [JSONDecodeError; FileNotFoundError] e); cbn;
        intros [= <- <-].
      * eexists. split; [apply printed_one | simpl; lia].
      * exists []. split; [apply printed_nothing | simpl; lia].
  - intros [= <- <-]. eexists. split; [apply printed_one | simpl; lia].
  - destruct (in_exns [JSONDecodeError; FileNotFoundError] e);
      intros [= <- <-].
    + eexists. split; [apply printed_one | simpl; lia].
    + exists []. split; [apply printed_nothing | simpl; lia].
Qed.

Lemma init_prints (w : world) (o : outcome t) (w' : world) :
  __init__ w = (o, w') ->
  exists msgs, printed w w' msgs /\ (List.length msgs <= 2)%nat.
Proof.
  unfold __init__, bindM, ret.
  destruct (load_shared_config w) as [[sdoc|e] w1] eqn:Hs.
  - destruct (load_shared_config_prints _ _ _ Hs) as (m1 & Hp1 & Hl1).
    destruct (load_local_config w1) as [[ldoc|e] w2] eqn:Hl;
      destruct (load_local_config_prints _ _ _ Hl) as (m2 & Hp2 & Hl2);
      intros [= <- <-]; exists (m1 ++ m2);
      (split; [eapply printed_trans; eauto | rewrite length_app; lia]).
  - destruct (load_shared_config_prints _ _ _ Hs) as (m1 & Hp1 & Hl1).
    intros [= <- <-]. exists m1. split; [exact Hp1 | lia].
Qed.

Lemma init_inv (w : world) (self : t) (w' : world) :
  __init__ w = (Ret self, w') ->
  exists w1,
    load_shared_config w = (Ret (shared_config self), w1) /\
    load_local_config w1 = (Ret (local_config self), w') /\
    local_file w1 = local_file w /\ home_desktop w1 = home_desktop w.
Proof.
  unfold __init__, bindM, ret.
  destruct (load_shared_config w) as [[sdoc|e] w1] eqn:Hs; [|discriminate].
  destruct (load_local_config w1) as [[ldoc|e] w2] eqn:Hl; [|discriminate].
  intros [= <- <-]. exists w1. repeat split; auto;
    destruct (load_shared_config_prints _ _ _ Hs) as (m1 & -> & _);
    reflexivity.
Qed.

Lemma wf_default_shared : wf_json (JDict default_shared_config) = true.
Proof. reflexivity. Qed.

Lemma wf_default_local (desktop : string) :
  wf_json (JDict (default_local_config desktop)) = true.
Proof. reflexivity. Qed.

(** What a load returns is a well-formed mapping that a merge with the
    defaults leaves unchanged. *)
Lemma load_shared_config_fixed (w : world) (doc : json) (w' : world) :
  load_shared_config w = (Ret doc, w') ->
  wf_file (shared_file w) = true ->
  exists m,
    doc = JDict m /\ wf_json (JDict m) = true /\
    _merge_configs default_shared_config (JDict m) = Ret m.
Proof.
  assert (Hdef : _merge_configs default_shared_config
                   (JDict default_shared_config) = Ret default_shared_config).
  { apply (merge_self _ _ eq_refl wf_default_shared). }
  unfold load_shared_config, try_exceptM, bindM, lift, ret, print.
  destruct (shared_file w) as [ | v | | e];
    cbn -[_merge_configs default_shared_config in_exns].
  - intros [= <- <-] _. exists default_shared_config. auto.
  - destruct (_merge_configs default_shared_config v) as [m|e] eqn:Em.
    + simpl. intros [= <- <-] Hwf. exists m. split; [reflexivity|]. split.
      * apply (wf_merge v _ _ wf_default_shared Hwf Em).
      * apply (merge_again v _ _ wf_default_shared Hwf Em).
    + destruct v as [ | | | | | d];
        try (simpl in Em; inversion Em; subst e; cbn; discriminate).
      destruct (merge_configs_total (JDict d) default_shared_config eq_refl)
        as [m Hm].
      congruence.
  - intros [= <- <-] _. exists default_shared_config. auto.
  - destruct (in_exns [JSONDecodeError; FileNotFoundError] e);
      [|discriminate].
    intros [= <- <-] _. exists default_shared_config. auto.
Qed.

Lemma load_local_config_fixed (w : world) (doc : json) (w' : world) :
  load_local_config w = (Ret doc, w') ->
  wf_file (local_file w) = true ->
  exists m,
    doc = JDict m /\ wf_json (JDict m) = true /\
    _merge_configs (default_local_config (home_desktop w)) (JDict m) = Ret m.
Proof.
  assert (Hdef : _merge_configs (default_local_config (home_desktop w))
                   (JDict (default_local_config (home_desktop w)))
                 = Ret (default_local_config (home_desktop w))).
  { apply (merge_self _ _ eq_refl (wf_default_local _)). }
  unfold load_local_config, try_exceptM, bindM, lift, ret, print.
  destruct (local_file w) as [ | v | | e];
    cbn -[_merge_configs default_local_config in_exns].
  - intros [= <- <-] _. exists (default_local_config (home_desktop w)).
    auto using wf_default_local.
  - destruct (_merge_configs (default_local_config (home_desktop w)) v)
      as [m|e] eqn:Em.
    + simpl. intros [= <- <-] Hwf. exists m. split; [reflexivity|]. split.
      * apply (wf_merge v _ _ (wf_default_local _) Hwf Em).
      * apply (merge_again v _ _ (wf_default_local _) Hwf Em).
    + destruct v as [ | | | | | d];
        try (simpl in Em; inversion Em; subst e; cbn; discriminate).
      destruct (merge_configs_total (JDict d)
                  (default_local_config (home_desktop w)) eq_refl) as [m Hm].
      congruence.
  - intros [= <- <-] _. exists (default_local_config (home_desktop w)).
    auto using wf_default_local.
  - destruct (in_exns [JSONDecodeError; FileNotFoundError] e);
      [|discriminate].
    intros [= <- <-] _. exists (default_local_config (home_desktop w)).
    auto using wf_default_local.
Qed.

Lemma load_shared_config_of (w : world) (d m : dict) :
  shared_file w = JsonText (JDict d) ->
  _merge_configs default_shared_config (JDict d) = Ret m ->
  load_shared_config w = (Ret (JDict m), w).
Proof.
  intros Hf Hm.
  unfold load_shared_config, try_exceptM, bindM, lift, ret.
  rewrite Hf. cbn -[_merge_configs default_shared_config in_exns].
  now rewrite Hm.
Qed.

Lemma load_local_config_of (w : world) (d m : dict) :
  local_file w = JsonText (JDict d) ->
  _merge_configs (default_local_config (home_desktop w)) (JDict d) = Ret m ->
  load_local_config w = (Ret (JDict m), w).
Proof.
  intros Hf Hm.
  unfold load_local_config, try_exceptM, bindM, lift, ret.
  rewrite Hf. cbn -[_merge_configs default_local_config in_exns].
  now rewrite Hm.
Qed.

Lemma save_local_config_true (self : t) (w w1 : world) :
  save_local_config self w = (Ret true, w1) ->
  w1 = set_local_file w (JsonText (local_config self)).
Proof.
  unfold save_local_config, try_exceptM, bindM, write_local, print, ret.
  destruct (local_write_error w) as [[e|e]|]; simpl;
    [discriminate | discriminate | intros [= <-]; reflexivity].
Qed.

Lemma save_shared_config_true (self : t) (w w1 : world) :
  save_shared_config self w = (Ret true, w1) ->
  w1 = set_shared_file w (JsonText (shared_config self)).
Proof.
  unfold save_shared_config, try_exceptM, bindM, write_shared, print, ret.
  destruct (shared_write_error w) as [[e|e]|]; simpl;
    [discriminate | discriminate | intros [= <-]; reflexivity].
Qed.

(** A value assigned in the local document and saved is found by the next
    store, unless both it and the built-in default at its path are
    mappings. *)
Lemma saved_value_found (self self1 fresh : t) (key_path : string)
    (v : json) (w w1 w2 : world) :
  set_local self key_path v = Ret self1 ->
  wf_json (local_config self) = true -> wf_json v = true ->
  save_local_config self1 w = (Ret true, w1) ->
  __init__ w1 = (Ret fresh, w2) ->
  match find (JDict (default_local_config (home_desktop w)))
          (split_dot key_path) with
  | Some (JDict _) => is_dict v = false
  | _ => True
  end ->
  find (local_config fresh) (split_dot key_path) = Some v.
Proof.
  intros Hset Hwf Hv Hsave Hinit Hdef.
  unfold set_local, _set_nested_value in Hset.
  destruct (set_walk (local_config self) (split_dot key_path) v) as [doc|e]
    eqn:Hw; [|discriminate].
  simpl in Hset. inversion Hset. subst self1. clear Hset.
  pose proof (wf_set_walk _ _ _ _ Hwf Hv Hw) as Hwfd.
  pose proof (set_walk_ret_find _ _ _ _ Hw) as Hfind.
  pose proof (set_walk_ret_settable _ _ _ _ Hw) as Hs.
  destruct (set_walk_returns _ _ v Hs) as (doc' & Hw' & _ & Hdict).
  assert (doc' = doc) by congruence. subst doc'.
  destruct doc as [ | | | | | d]; try discriminate.
  apply save_local_config_true in Hsave. simpl in Hsave. subst w1.
  apply init_inv in Hinit. destruct Hinit as (wa & _ & Hll & Hlf & Hhd).
  simpl in Hlf, Hhd.
  destruct (merge_configs_total (JDict d)
              (default_local_config (home_desktop wa)) eq_refl) as [m Hm].
  rewrite (load_local_config_of wa d m Hlf Hm) in Hll.
  inversion Hll as [[Hlocal Hwa]]. rewrite Hhd in Hm.
  apply (merge_keeps_user_value_or_replaces _ _ _ _ _ Hwfd Hm Hfind Hdef).
Qed.

End Sessions.

(** X12. Constructing a store only reads: whatever the files hold and
    whether or not it raises, the world afterwards differs from the world
    before by at most two printed messages; no file is created or changed. *)
Theorem construction_only_prints (w : world) (o : outcome t) (w' : world) :
  __init__ w = (o, w') ->
  exists msgs, printed w w' msgs /\ (List.length msgs <= 2)%nat.
Proof. apply init_prints. Qed.

Lemma construction_only_prints_witness :
  exists msgs,
    printed (set_shared_file empty_world BadText)
      (snd (__init__ (set_shared_file empty_world BadText))) msgs.
Proof.
  destruct (construction_only_prints
              (set_shared_file empty_world BadText)
              (fst (__init__ (set_shared_file empty_world BadText)))
              (snd (__init__ (set_shared_file empty_world BadText)))
              eq_refl)
    as (msgs & Hp & _).
  exists msgs. exact Hp.
Defined.

(** X13. A store built from well-formed files, saved with both
    [save_local_config()] and [save_shared_config()], is what the
    constructor builds again from the saved files, and that construction
    prints nothing: loading is a fixed point of save and load. *)
Theorem reload_is_fixed_point (w w0 w1 w2 : world) (self : t) :
  __init__ w = (Ret self, w0) ->
  wf_file (shared_file w) = true -> wf_file (local_file w) = true ->
  save_local_config self w0 = (Ret true, w1) ->
  save_shared_config self w1 = (Ret true, w2) ->
  __init__ w2 = (Ret self, w2).
Proof.
  intros Hinit Hws Hwl Hsl Hss.
  destruct (init_prints _ _ _ Hinit) as (msgs & Hp & _).
  apply init_inv in Hinit. destruct Hinit as (wa & Hls & Hll & Hlf & Hhd).
  rewrite <- Hlf in Hwl.
  destruct (load_shared_config_fixed _ _ _ Hls Hws) as (ms & Es & _ & Hms).
  destruct (load_local_config_fixed _ _ _ Hll Hwl) as (ml & El & _ & Hml).
  apply save_local_config_true in Hsl.
  apply save_shared_config_true in Hss.
  assert (Hd2 : home_desktop w2 = home_desktop wa).
  { rewrite Hss, Hsl, Hp, Hhd. reflexivity. }
  assert (Hs2 : shared_file w2 = JsonText (JDict ms)).
  { rewrite Hss, Es. reflexivity. }
  assert (Hl2 : local_file w2 = JsonText (JDict ml)).
  { rewrite Hss, Hsl, El. reflexivity. }
  rewrite <- Hd2 in Hml.
  unfold __init__, bindM, ret.
  rewrite (load_shared_config_of w2 ms ms Hs2 Hms).
  rewrite (load_local_config_of w2 ml ml Hl2 Hml).
  destruct self as [sdoc ldoc]. simpl in Es, El. now subst.
Qed.

Lemma reload_is_fixed_point_witness :
  exists self w0 w1 w2,
    __init__ (set_local_file empty_world
                (JsonText (JDict [("extra", JNum 1);
                                  ("paths",
                                   JDict [("save_folder", JStr "/x")])])))
    = (Ret self, w0) /\
    save_local_config self w0 = (Ret true, w1) /\
    save_shared_config self w1 = (Ret true, w2) /\
    __init__ w2 = (Ret self, w2).
Proof.
  do 4 eexists. split; [reflexivity|]. split; [reflexivity|].
  split; [reflexivity|].
  refine (reload_is_fixed_point
            (set_local_file empty_world
               (JsonText (JDict [("extra", JNum 1);
                                 ("paths",
                                  JDict [("save_folder", JStr "/x")])])))
            _ _ _ _ _ _ _ _ _); reflexivity.
Defined.



(** X15. After [set_capture_region(x, y, width, height)] returned while
    the local file can be written, [get_capture_region()] on the next store
    built from the directory returns the mapping of [x], [y], [width] and
    [height] to the four arguments. *)
Theorem capture_region_survives_restart (self self' fresh : t)
    (x y width height : Z) (w w' w2 : world) :
  set_capture_region self x y width height w = (Ret self', w') ->
  local_write_error w = None ->
  wf_json (local_config self) = true ->
  __init__ w' = (Ret fresh, w2) ->
  get_capture_region fresh
  = Ret (JDict [("x", JNum x); ("y", JNum y);
                ("width", JNum width); ("height", JNum height)]).
Proof.
  intros Hrun He Hwf Hinit.
  apply set_and_save_inv in Hrun. destruct Hrun as (Hset & b & Hsave).
  destruct (save_local_config_returns self' w) as (b' & w'' & Hsave' & Hok).
  destruct (Hok He) as [-> _].
  assert (Hb : (Ret b, w') = (Ret true, w'')) by congruence.
  inversion Hb. subst b w''. clear Hb Hsave'.
  rewrite get_capture_region_lookup. cbv zeta.
  assert (Hl : lookup fresh "user_preferences.last_used_region" JNull
               = JDict [("x", JNum x); ("y", JNum y);
                        ("width", JNum width); ("height", JNum height)]).
  { unfold lookup, non_null.
    rewrite (saved_value_found _ _ _ _ _ _ _ _ Hset Hwf eq_refl Hsave Hinit I).
    reflexivity. }
  now rewrite Hl.
Qed.

Lemma capture_region_survives_restart_witness :
  exists self' w' fresh w2,
    set_capture_region
      (mk (JDict default_shared_config)
          (JDict (default_local_config "/home/user/Desktop")))
      5 6 700 800 empty_world = (Ret self', w') /\
    __init__ w' = (Ret fresh, w2) /\
    get_capture_region fresh
    = Ret (JDict [("x", JNum 5); ("y", JNum 6);
                  ("width", JNum 700); ("height", JNum 800)]).
Proof.
  do 4 eexists. split; [reflexivity|]. split; [reflexivity|].
  refine (capture_region_survives_restart
            (mk (JDict default_shared_config)
                (JDict (default_local_config "/home/user/Desktop")))
            _ _ 5 6 700 800 empty_world _ _ _ _ _ _); reflexivity.
Defined.

(** *** Errors that are not handled *)

Section Unhandled.

Lemma merge_configs_non_mapping (default : dict) (v : json) :
  is_dict v = false -> _merge_configs default v = Raise AttributeError.
Proof. destruct v; try reflexivity. discriminate. Qed.

Lemma load_shared_config_non_mapping (w : world) (v : json) :
  shared_file w = JsonText v -> is_dict v = false ->
  load_shared_config w = (Raise AttributeError, w).
Proof.
  intros Hf Hv. unfold load_shared_config, try_exceptM, bindM, lift, ret.
  rewrite Hf. cbn -[_merge_configs default_shared_config in_exns].
  now rewrite (merge_configs_non_mapping _ v Hv).
Qed.

Lemma load_local_config_non_mapping (w : world) (v : json) :
  local_file w = JsonText v -> is_dict v = false ->
  load_local_config w = (Raise AttributeError, w).
Proof.
  intros Hf Hv. unfold load_local_config, try_exceptM, bindM, lift, ret.
  rewrite Hf. cbn -[_merge_configs default_local_config in_exns].
  now rewrite (merge_configs_non_mapping _ v Hv).
Qed.

Lemma needed_entries_of_nothing : needed_entries [] <> [].
Proof. vm_compute. discriminate. Qed.

Lemma create_gitignore_raises (self : t) (w : world) (e : exn) :
  gitignore_error w = Some e -> create_gitignore self w = (Raise e, w).
Proof.
  intros He.
  unfold create_gitignore, bindM, read_gitignore_lines, append_gitignore, ret.
  destruct (gitignore w) as [c|] eqn:Eg.
  - now rewrite He.
  - destruct (needed_entries []) eqn:En.
    + now destruct needed_entries_of_nothing.
    + now rewrite He.
Qed.

(** The lines of [.gitignore] after a run that returns. *)
Lemma create_gitignore_lines (self : t) (w w1 : world) :
  create_gitignore self w = (Ret tt, w1) ->
  gitignore_error w = None /\
  (needed_entries (lines w) = [] -> w1 = w) /\
  (needed_entries (lines w) <> [] ->
   gitignore w1
   = Some (content w ++ separator (lines w)
             ++ block (needed_entries (lines w)))) /\
  exists mid, lines w1 = lines w ++ mid ++ needed_entries (lines w).
Proof.
  intros Hrun.
  destruct (gitignore_error w) as [e|] eqn:He.
  { rewrite (create_gitignore_raises self w e He) in Hrun. discriminate. }
  rewrite (create_gitignore_run self w He) in Hrun.
  inversion Hrun as [Hw1]. clear Hrun.
  split; [reflexivity|].
  destruct (needed_entries (lines w)) as [|e0 rest] eqn:En.
  - split; [reflexivity|]. split; [congruence|].
    exists []. now rewrite !app_nil_r.
  - split; [discriminate|]. split; [reflexivity|].
    destruct (lines_after_append (content w)) as (mid & _ & Hl).
    { fold (lines w). rewrite En. discriminate. }
    exists mid. unfold lines at 1. unfold content at 1.
    cbn [gitignore set_gitignore]. fold (lines w) in Hl.
    rewrite En in Hl. exact Hl.
Qed.

Lemma fixed_line_present_or_needed (e : text) (existing : list text) :
  fixed_line e -> In e existing \/ In e (needed_entries existing).
Proof.
  intros Hf. destruct (mem e existing) eqn:Em.
  - left. now apply mem_In.
  - right. apply needed_entries_In. split; auto.
    intros Hin. apply mem_In in Hin. congruence.
Qed.

Lemma split_dot_no_dot (s : string) :
  Forall (fun c => has_dot c = false) (split_dot s).
Proof.
  induction s as [|c s IH]; simpl.
  - repeat constructor.
  - destruct (Ascii.eqb c ".") eqn:E.
    + constructor; auto.
    + destruct (split_dot s) as [|w0 ws].
      * repeat constructor. simpl. now rewrite E.
      * inversion IH. subst. constructor; auto. simpl. now rewrite E.
Qed.

End Unhandled.

(** X16. A configuration file that holds valid JSON that is not an object
    (a list, a string, a number, [null]) is fatal: the load raises
    [AttributeError], which its handler does not catch, and the store cannot
    be constructed. *)
Theorem non_object_json_is_fatal (w : world) (v : json) :
  is_dict v = false ->
  (shared_file w = JsonText v ->
   load_shared_config w = (Raise AttributeError, w) /\
   __init__ w = (Raise AttributeError, w)) /\
  (local_file w = JsonText v ->
   load_local_config w = (Raise AttributeError, w) /\
   forall self w', __init__ w <> (Ret self, w')).
Proof.
  intros Hv. split; intros Hf.
  - pose proof (load_shared_config_non_mapping w v Hf Hv) as Hl.
    split; [exact Hl|]. unfold __init__, bindM. now rewrite Hl.
  - split; [now apply (load_local_config_non_mapping w v)|].
    intros self w' Hinit. apply init_inv in Hinit.
    destruct Hinit as (w1 & _ & Hll & Hlf & _).
    rewrite <- Hlf in Hf.
    rewrite (load_local_config_non_mapping w1 v Hf Hv) in Hll.
    discriminate.
Qed.

Lemma non_object_json_is_fatal_witness :
  __init__ (set_shared_file empty_world (JsonText (JList [])))
  = (Raise AttributeError,
     set_shared_file empty_world (JsonText (JList []))).
Proof.
  exact (proj2 (proj1 (non_object_json_is_fatal
                         (set_shared_file empty_world (JsonText (JList [])))
                         (JList []) eq_refl) eq_refl)).
Defined.

(** X17. [create_gitignore()] has no handler: when [.gitignore] cannot be
    opened the exception propagates and nothing is written, whether the file
    exists (the read fails) or not (the append that would create it
    fails). *)
Theorem create_gitignore_propagates (self : t) (w : world) (e : exn) :
  gitignore_error w = Some e -> create_gitignore self w = (Raise e, w).
Proof. apply create_gitignore_raises. Qed.

Lemma create_gitignore_propagates_witness :
  create_gitignore
    (mk (JDict default_shared_config)
        (JDict (default_local_config "/home/user/Desktop")))
    (mkWorld NoFile NoFile None None None (Some PermissionError)
       "/home/user/Desktop" (fun _ => Ret false) [])
  = (Raise PermissionError,
     mkWorld NoFile NoFile None None None (Some PermissionError)
       "/home/user/Desktop" (fun _ => Ret false) []).
Proof.
  exact (create_gitignore_propagates _
           (mkWorld NoFile NoFile None None None (Some PermissionError)
              "/home/user/Desktop" (fun _ => Ret false) [])
           PermissionError eq_refl).
Defined.

(** X18. When [.gitignore] can be opened, a run of [create_gitignore()]
    leaves the world exactly as it was if and only if every non-blank line
    of the fixed block is already a line of the file; in particular a
    missing file is then not created. *)
Theorem create_gitignore_noop_iff (self : t) (w : world) :
  gitignore_error w = None ->
  (create_gitignore self w = (Ret tt, w) <->
   forall e, fixed_line e -> In e (lines w)).
Proof.
  intros He. rewrite (create_gitignore_run self w He). split.
  - intros Hrun e Hfix.
    destruct (fixed_line_present_or_needed e (lines w) Hfix) as [H | H];
      auto.
    exfalso. destruct (needed_entries (lines w)) as [|e0 rest] eqn:En;
      [contradiction|].
    inversion Hrun as [Hw]. apply (f_equal gitignore) in Hw.
    cbn [gitignore set_gitignore] in Hw. unfold content in Hw.
    destruct (gitignore w) as [c|]; [|discriminate].
    inversion Hw as [Hc].
    assert (Hnil : separator (lines w) ++ block (e0 :: rest) = []).
    { apply (app_inv_head c). rewrite app_nil_r. exact Hc. }
    clear Hc. rename Hnil into Hc.
    apply app_eq_nil in Hc. destruct Hc as [_ Hc].
    unfold block in Hc. apply app_eq_nil in Hc. destruct Hc as [_ Hc].
    discriminate.
  - intros Hall.
    assert (Hn : needed_entries (lines w) = []).
    { apply filter_nil. intros e Hin.
      destruct (text_eqb (strip e) []) eqn:Es; [now rewrite andb_false_r|].
      assert (Hfix : fixed_line e).
      { split; auto. intros E. apply text_eqb_eq in E. congruence. }
      apply Hall, mem_In in Hfix. now rewrite Hfix. }
    now rewrite Hn.
Qed.

Lemma create_gitignore_noop_iff_witness :
  create_gitignore
    (mk (JDict default_shared_config)
        (JDict (default_local_config "/home/user/Desktop")))
    empty_world
  <> (Ret tt, empty_world).
Proof.
  intros H.
  apply (proj1 (create_gitignore_noop_iff _ empty_world eq_refl)) with
    (e := of_string "*.md") in H.
  - exact H.
  - split; [vm_compute; tauto | vm_compute; discriminate].
Defined.

(** X19. No component of a split key path holds a dot, so a key that holds
    a dot cannot be reached: writing an entry under such a key at the top of
    a document changes no result of [_get_nested_value]. *)
Theorem dotted_key_is_unreachable (d : dict) (key : string) (value : json)
    (key_path : string) :
  has_dot key = true ->
  Forall (fun c => has_dot c = false) (split_dot key_path) /\
  _get_nested_value (JDict (dict_set d key value)) key_path
  = _get_nested_value (JDict d) key_path.
Proof.
  intros Hk. pose proof (split_dot_no_dot key_path) as Hs.
  split; [exact Hs|]. rewrite !get_nested_value_find. f_equal.
  pose proof (split_dot_nonempty key_path) as Hne.
  destruct (split_dot key_path) as [|c rest]; [congruence|].
  inversion Hs as [|? ? Hc _]. subst. simpl.
  rewrite dict_get_set_other; [reflexivity|]. intros ->. congruence.
Qed.

Lemma dotted_key_is_unreachable_witness :
  _get_nested_value (JDict [("a.b", JNum 1)]) "a.b" = Ret JNull.
Proof.
  exact (proj2 (dotted_key_is_unreachable [] "a.b" (JNum 1) "a.b" eq_refl)).
Defined.

(** X20. When importing the module returns (the store is constructed and
    [create_gitignore()] has run), the store is the one the constructor
    built, the two configuration files are as they were, and every non-blank
    line of the fixed block is a line of [.gitignore]. *)
Theorem import_ensures_gitignore (w w' : world) (config : t) :
  module_import w = (Ret config, w') ->
  (exists w0, __init__ w = (Ret config, w0)) /\
  shared_file w' = shared_file w /\ local_file w' = local_file w /\
  forall e, fixed_line e -> In e (lines w').
Proof.
  unfold module_import, bindM, ret.
  destruct (__init__ w) as [[self|e] w0] eqn:Hinit; [|discriminate].
  destruct (create_gitignore self w0) as [[[]|e] w1] eqn:Hrun;
    [|discriminate].
  intros [= <- <-].
  destruct (init_prints _ _ _ Hinit) as (msgs & Hp & _).
  destruct (create_gitignore_lines _ _ _ Hrun)
    as (He & Hnone & Hsome & mid & Hl).
  split; [eauto|].
  assert (Hfiles : shared_file w1 = shared_file w0 /\
                   local_file w1 = local_file w0).
  { rewrite (create_gitignore_run self w0 He) in Hrun.
    inversion Hrun as [Hw1].
    destruct (needed_entries (lines w0)); auto. }
  destruct Hfiles as [Hsf Hlf]. rewrite Hsf, Hlf, Hp.
  split; [reflexivity|]. split; [reflexivity|].
  intros e Hfix. rewrite Hl.
  destruct (fixed_line_present_or_needed e (lines w0) Hfix) as [H | H];
    apply in_or_app; [now left | right; apply in_or_app; now right].
Qed.

Lemma import_ensures_gitignore_witness :
  In (of_string "config.local.json")
    (lines (snd (module_import empty_world))).
Proof.
  refine (proj2 (proj2 (proj2 (import_ensures_gitignore empty_world
                                 (snd (module_import empty_world))
                                 _ _))) _ _).
  - reflexivity.
  - split; [vm_compute; tauto | vm_compute; discriminate].
Defined.
